(** * ssvg: the proxy handler of Simple SVG, embedded and verified

    The development follows [src/ssvg.js]:

    - [propName_match], [toUpperCase], [toLowerCase], [className_of]
      embed the name analysis at the head of [SSVGProxyHandler.get];
    - [SSVGProxyHandler_get], [creator] and [SSVGProxyHandler_set] embed
      the two traps and the creator closure;
    - [SSVGProxy], [SSVGElementProxy] and [SSVG] embed the three classes.

    The browser is not part of the repository.  What the library asks of
    it is gathered in the record [Host] (global interface registry, name
    validation of the document object model, inherited members, string
    coercion of objects), and the few operations of the language and of
    the document tree that the library calls (property lookup, property
    definition, the proxy's [[Get]] and [[Set]], [createElementNS],
    [setAttribute], [append]) are written out over an explicit heap. *)

From Stdlib Require Import ZArith String Ascii DecimalString.
From stdpp Require Import base option list strings gmap.

Local Open Scope string_scope.

(** ** Strings *)

Module Str.

(** [\w] of an ECMAScript regular expression without flags:
    [[A-Za-z0-9_]]. *)
Definition is_word_char (c : ascii) : bool :=
  let n := nat_of_ascii c in
  (((48 <=? n) && (n <=? 57)) || ((65 <=? n) && (n <=? 90))
   || ((97 <=? n) && (n <=? 122)) || (n =? 95))%nat.

Definition upper_char (c : ascii) : ascii :=
  let n := nat_of_ascii c in
  if ((97 <=? n) && (n <=? 122))%nat then ascii_of_nat (n - 32) else c.

Definition lower_char (c : ascii) : ascii :=
  let n := nat_of_ascii c in
  if ((65 <=? n) && (n <=? 90))%nat then ascii_of_nat (n + 32) else c.

(** [String.prototype.toUpperCase] and [toLowerCase].  The library applies
    them to pieces of a [\w+] match only, where they act on the ASCII
    letters and leave every other character alone. *)
Fixpoint toUpperCase (s : string) : string :=
  match s with
  | EmptyString => EmptyString
  | String c s' => String (upper_char c) (toUpperCase s')
  end.

Fixpoint toLowerCase (s : string) : string :=
  match s with
  | EmptyString => EmptyString
  | String c s' => String (lower_char c) (toLowerCase s')
  end.

(** The longest prefix made of word characters: what a greedy [\w*]
    consumes. *)
Fixpoint take_word (s : string) : string :=
  match s with
  | String c s' => if is_word_char c then String c (take_word s') else EmptyString
  | EmptyString => EmptyString
  end.

Fixpoint strip_prefix (p s : string) : option string :=
  match p, s with
  | EmptyString, _ => Some s
  | String a p', String b s' => if Ascii.eqb a b then strip_prefix p' s' else None
  | String _ _, EmptyString => None
  end.

Definition nonempty (s : string) : bool :=
  match s with EmptyString => false | String _ _ => true end.

Definition all_word (s : string) : bool := String.eqb (take_word s) s.

End Str.

(** ** The name analysis of [get] *)

(** One attempt of [/(create)?(\w+)/] at the start of [s].  The optional
    group is greedy: it is kept when a word character follows it, and given
    up (backtracking) otherwise. *)
Definition match_here (s : string) : option (bool * string) :=
  let plain :=
    let w := Str.take_word s in
    if Str.nonempty w then Some (false, w) else None in
  match Str.strip_prefix "create" s with
  | Some rest =>
      let w := Str.take_word rest in
      if Str.nonempty w then Some (true, w) else plain
  | None => plain
  end.

(** [propName.match(/(create)?(\w+)/)]: the regular expression is not
    anchored, so the attempts start at index 0 and move right; the result is
    the pair of capture groups [(isCreate, elemName)], or [None] for the
    [null] returned when no index matches. *)
Fixpoint propName_match (propName : string) : option (bool * string) :=
  match match_here propName with
  | Some r => Some r
  | None =>
      match propName with
      | EmptyString => None
      | String _ rest => propName_match rest
      end
  end.

(** [elemName[0].toUpperCase() + elemName.slice(1)].  The name is a match
    of [\w+] and has a first character. *)
Definition upperElemName_of (elemName : string) : string :=
  match elemName with
  | EmptyString => EmptyString
  | String c rest => Str.toUpperCase (String c EmptyString) ++ rest
  end.

(** [`SVG${upperElemName}Element`] *)
Definition className_of (elemName : string) : string :=
  "SVG" ++ upperElemName_of elemName ++ "Element".

Definition svgns : string := "http://www.w3.org/2000/svg".

(** ** Values and the heap *)

Abbreviation loc := nat.

(** Function objects the library hands out or meets: a method of the host,
    the creator closure of [get] (with the three variables it captures),
    and the result of [prop.bind(instance)]. *)
Inductive fn : Type :=
  | Native (name : string)
  | Creator (isCreate : bool) (elemName : string) (instance : loc)
  | Bound (f : fn) (this : loc).

(** Numbers are integers (fractions have no place here; what is done with a
    number depends on its size only where it is turned into a string, see
    [ToString]); [VObject l] is a reference to the heap object [l] itself, [VProxy l] is the
    [new Proxy(l, SSVGProxyHandler)] built over it (the library builds
    exactly one per target). *)
Inductive value : Type :=
  | VUndefined
  | VNull
  | VBool (b : bool)
  | VNumber (z : Z)
  | VString (s : string)
  | VObject (l : loc)
  | VProxy (target : loc)
  | VFunction (f : fn).

#[global] Instance fn_eq_dec : EqDecision fn.
Proof. solve_decision. Defined.
#[global] Instance value_eq_dec : EqDecision value.
Proof. solve_decision. Defined.

(** An own data property with its attributes. *)
Record descriptor : Type := Descriptor {
  d_value : value;
  d_writable : bool;
  d_enumerable : bool;
  d_configurable : bool;
}.

(** The part of a heap object that belongs to the document tree. *)
Record node : Type := Node {
  localName : string;
  namespaceURI : string;
  attributes : list (string * string);
  children : list loc;
  parent : option loc;
}.

(** A heap object: its own properties and, for an element of the document
    tree, its node data.  An object without node data is an instance of the
    class [SSVG]. *)
Record object : Type := Object {
  own : gmap string descriptor;
  dom : option node;
}.

Abbreviation heap := (list object).

Inductive exn : Type := TypeError | InvalidCharacterError | HierarchyRequestError.

(** How a call ends: with a value, with an exception, or outside the part
    of the host that is written out here (calling a host method other than
    [setAttribute] and [append], or a function found where the library
    expects one of these two, or the string of a number that is no safe
    integer). *)
Inductive completion (A : Type) : Type :=
  | Normal (a : A)
  | Throw (e : exn)
  | Unmodelled.
Arguments Normal {A} a.
Arguments Throw {A} e.
Arguments Unmodelled {A}.

(** Every call runs on the heap and leaves a heap, also when it throws: what
    was mutated before the exception stays mutated. *)
Definition M (A : Type) : Type := heap → completion A * heap.

Definition ret {A} (a : A) : M A := λ st, (Normal a, st).
Definition throw {A} (e : exn) : M A := λ st, (Throw e, st).
Definition unmodelled {A} : M A := λ st, (Unmodelled, st).
Definition bind {A B} (c : M A) (k : A → M B) : M B :=
  λ st, match c st with
        | (Normal a, st') => k a st'
        | (Throw e, st') => (Throw e, st')
        | (Unmodelled, st') => (Unmodelled, st')
        end.
Definition read_heap : M heap := λ st, (Normal st, st).
Definition write_heap (st' : heap) : M unit := λ _, (Normal tt, st').

Notation "'let*' x := c 'in' k" := (bind c (λ x, k))
  (at level 10, x name, c at level 100, k at level 200).
Notation "c ;;; k" := (bind c (λ _, k))
  (at level 100, k at level 200, right associativity).

(** ** The host *)

Record Host : Type := {
  (** [window.hasOwnProperty(name)] *)
  window_hasOwnProperty : string → bool;
  (** names [createElementNS] accepts as a local name; it raises
      [InvalidCharacterError] on the others *)
  valid_element_name : string → bool;
  (** names [setAttribute] accepts; it raises [InvalidCharacterError] on
      the others *)
  valid_attribute_name : string → bool;
  (** what the prototype chain of an element with the given local name
      yields for a property name ([VUndefined] when it has no such member) *)
  node_inherited : string → string → value;
  (** the same for an instance of [SSVG]: [SSVG.prototype], then
      [Object.prototype] *)
  session_inherited : string → value;
  (** [ToString] of an object, a proxy or a function; [None] when the
      conversion raises a [TypeError] *)
  ToString_object : heap → value → option string;
}.

(** ** Operations of the language and of the document tree *)

Section Library.

Context (h : Host).

Definition alloc (o : object) : M loc := λ st, (Normal (length st), (st ++ [o])%list).

Definition lookup_object (l : loc) : M object :=
  λ st, match st !! l with
        | Some o => (Normal o, st)
        | None => (Unmodelled, st)
        end.

Definition store_object (l : loc) (o : object) : M unit :=
  λ st, (Normal tt, <[l := o]> st).

Definition inherited (o : object) (name : string) : value :=
  match dom o with
  | Some n => node_inherited h (localName n) name
  | None => session_inherited h name
  end.

(** [o[name]] on the object itself: the own property, or else what the
    prototype chain gives. *)
Definition property_of (o : object) (name : string) : value :=
  match own o !! name with
  | Some d => d_value d
  | None => inherited o name
  end.

Definition Get (l : loc) (name : string) : M value :=
  let* o := lookup_object l in ret (property_of o name).

(** [Object.getOwnPropertyDescriptor(o, name)] *)
Definition getOwnPropertyDescriptor (l : loc) (name : string) : M (option descriptor) :=
  let* o := lookup_object l in ret (own o !! name).

(** [o[name] = val] in the strict code of the module.  Where the object has
    no own property of that name the outcome depends on the setters of the
    prototype chain; the library never assigns there. *)
Definition property_assign (l : loc) (name : string) (val : value) : M unit :=
  let* o := lookup_object l in
  match own o !! name with
  | Some d =>
      if d_writable d then
        store_object l
          (Object (<[name := Descriptor val true (d_enumerable d) (d_configurable d)]> (own o))
                  (dom o))
      else throw TypeError
  | None => unmodelled
  end.

(** [Object.defineProperty(o, name, {value: v})]: a new property gets every
    absent attribute as [false]; an existing one keeps its attributes, and
    may change its value only if it is configurable or writable. *)
Definition defineProperty_value (l : loc) (name : string) (v : value) : M unit :=
  let* o := lookup_object l in
  match own o !! name with
  | None =>
      store_object l (Object (<[name := Descriptor v false false false]> (own o)) (dom o))
  | Some d =>
      if d_configurable d || d_writable d then
        store_object l
          (Object (<[name := Descriptor v (d_writable d) (d_enumerable d) (d_configurable d)]> (own o))
                  (dom o))
      else if bool_decide (d_value d = v) then ret tt
      else throw TypeError
  end.

(** The safe integers, from [Number.MIN_SAFE_INTEGER] to
    [Number.MAX_SAFE_INTEGER] = 2^53 - 1. *)
Definition safe_integer (z : Z) : bool := (Z.abs z <=? 9007199254740991)%Z.

(** [ToString].  A safe integer is a double whose neighbours are at most 1
    away, so that the shortest digits that give it back are its own, and it
    is below 1e21, so that they are printed without exponent: its string is
    its decimal numeral.  Beyond that range [Number::toString] rounds the
    digits (2^60 prints as 1152921504606847000) and from 1e21 on it uses an
    exponent; this is not written out. *)
Definition ToString (v : value) : M string :=
  match v with
  | VUndefined => ret "undefined"
  | VNull => ret "null"
  | VBool true => ret "true"
  | VBool false => ret "false"
  | VNumber z =>
      if safe_integer z then ret (NilZero.string_of_int (Z.to_int z)) else unmodelled
  | VString s => ret s
  | VObject _ | VProxy _ | VFunction _ =>
      λ st, match ToString_object h st v with
            | Some s => (Normal s, st)
            | None => (Throw TypeError, st)
            end
  end.

Definition ToBoolean (v : value) : bool :=
  match v with
  | VUndefined | VNull => false
  | VBool b => b
  | VNumber z => negb (z =? 0)%Z
  | VString s => Str.nonempty s
  | VObject _ | VProxy _ | VFunction _ => true
  end.

(** [document.createElementNS(ns, name)]: a fresh element without
    attributes, children or parent. *)
Definition createElementNS (ns name : string) : M loc :=
  if valid_element_name h name
  then alloc (Object ∅ (Some (Node name ns [] [] None)))
  else throw InvalidCharacterError.

(** The attribute list after "set an attribute value": the first attribute
    of that name changes its value in place, and a new attribute goes to
    the end. *)
Fixpoint set_attr (name val : string) (attrs : list (string * string))
  : list (string * string) :=
  match attrs with
  | [] => [(name, val)]
  | (k, v) :: rest =>
      if String.eqb k name then (k, val) :: rest
      else (k, v) :: set_attr name val rest
  end.

Definition get_attr (name : string) (attrs : list (string * string)) : option string :=
  snd <$> List.find (λ kv, String.eqb (fst kv) name) attrs.

Definition update_node (l : loc) (f : node → node) (st : heap) : heap :=
  match st !! l with
  | Some (Object props (Some n)) => <[l := Object props (Some (f n))]> st
  | _ => st
  end.

(** [Element.prototype.setAttribute], called with [this] and its arguments.
    Both arguments are converted to strings before the name is checked.
    (The lower-casing of the name applies to elements of the HTML namespace
    only; the library creates its elements in [svgns].) *)
Definition Element_setAttribute (this : loc) (args : list value) : M value :=
  let* o := lookup_object this in
  match dom o, args with
  | None, _ => throw TypeError
  | Some _, qualifiedName :: val :: _ =>
      let* name := ToString qualifiedName in
      let* s := ToString val in
      if valid_attribute_name h name then
        (let* st := read_heap in
         write_heap
           (update_node this
              (λ n, Node (localName n) (namespaceURI n) (set_attr name s (attributes n))
                         (children n) (parent n)) st)) ;;;
        ret VUndefined
      else throw InvalidCharacterError
  | Some _, _ => throw TypeError
  end.

(** [contains fuel st a x]: [x] is [a] or lies below [a] in the tree. *)
Fixpoint contains (fuel : nat) (st : heap) (a x : loc) : bool :=
  (a =? x)%nat ||
  match fuel with
  | O => false
  | S fuel' =>
      match st !! a with
      | Some (Object _ (Some n)) => existsb (λ c, contains fuel' st c x) (children n)
      | _ => false
      end
  end.

Definition remove_child (c : loc) (n : node) : node :=
  Node (localName n) (namespaceURI n) (attributes n)
       (List.filter (λ x, negb (x =? c)%nat) (children n)) (parent n).

Definition add_last_child (c : loc) (n : node) : node :=
  Node (localName n) (namespaceURI n) (attributes n) (children n ++ [c])%list (parent n).

Definition set_parent (p : loc) (n : node) : node :=
  Node (localName n) (namespaceURI n) (attributes n) (children n) (Some p).

(** [Element.prototype.append] with one node as its argument: the node must
    not contain the new parent; it leaves its old parent, if any, and
    becomes the last child of [this].  (Strings, which become text nodes,
    and several arguments are not written out.) *)
Definition Element_append (this : loc) (args : list value) : M value :=
  let* p := lookup_object this in
  match dom p, args with
  | None, _ => throw TypeError
  | Some _, [VObject c] =>
      let* co := lookup_object c in
      match dom co with
      | None => unmodelled
      | Some cn =>
          let* st := read_heap in
          if contains (length st) st c this then throw HierarchyRequestError
          else
            let st1 := match parent cn with
                       | Some q => update_node q (remove_child c) st
                       | None => st
                       end in
            let st2 := update_node this (add_last_child c) st1 in
            write_heap (update_node c (set_parent this) st2) ;;;
            ret VUndefined
      end
  | Some _, _ => unmodelled
  end.

Definition native_call (name : string) (this : loc) (args : list value) : M value :=
  if String.eqb name "setAttribute" then Element_setAttribute this args
  else if String.eqb name "append" then Element_append this args
  else unmodelled.

(** [recv.name(args)] for the two methods the library calls, [setAttribute]
    and [append]: the member is looked up on the receiver and called with
    the receiver as [this].  Primitive values and function objects have no
    member of either name, so the call on them is a [TypeError], as is the
    call of a member that is no function. *)
Definition call_method (recv : value) (name : string) (args : list value) : M value :=
  match recv with
  | VObject l =>
      let* f := Get l name in
      match f with
      | VFunction (Native m) => native_call m l args
      | VFunction _ => unmodelled
      | _ => throw TypeError
      end
  | VProxy _ => unmodelled
  | _ => throw TypeError
  end.

(** ** The library *)

(** An attribute mapping as a call receives it: [None] when the argument is
    left out (the default [{}] applies), otherwise the entries that
    [Object.entries] yields, in the mapping's iteration order. *)
Definition mapping := option (list (string * value)).

Definition entries (attrs : mapping) : list (string * value) := default [] attrs.

(** [class SSVGProxy]: [new Proxy(ssvg, SSVGProxyHandler)] *)
Definition SSVGProxy (ssvg : loc) : M value := ret (VProxy ssvg).

(** [class SSVGElementProxy].  The handler has no [defineProperty] trap, so
    the definition of [root] lands on the element itself. *)
Definition SSVGElementProxy (element : loc) : M value :=
  let proxy := VProxy element in
  defineProperty_value element "root" (VObject element) ;;;
  ret proxy.

(** The loop [for (let [attrName, attrVal] of Object.entries(attrs))] over
    [recv().setAttribute(attrName, attrVal)], the receiver being evaluated
    anew in every round. *)
Fixpoint set_attributes (recv : M value) (attrs : list (string * value)) : M unit :=
  match attrs with
  | [] => ret tt
  | (attrName, attrVal) :: rest =>
      let* r := recv in
      call_method r "setAttribute" [VString attrName; attrVal] ;;;
      set_attributes recv rest
  end.

(** The creator function that [get] returns, closed over [isCreate],
    [elemName] and [instance]. *)
Definition creator (isCreate : bool) (elemName : string) (instance : loc)
    (attrs : mapping) : M value :=
  let* elem := createElementNS svgns elemName in
  set_attributes (ret (VObject elem)) (entries attrs) ;;;
  (if negb isCreate then
     let* root := Get instance "root" in
     call_method root "append" [VObject elem] ;;;
     ret tt
   else ret tt) ;;;
  SSVGElementProxy elem.

(** [SSVGProxyHandler.get], for a property name that is a string.  When
    no index matches, [match] returns [null] and the destructuring
    assignment raises a [TypeError]. *)
Definition SSVGProxyHandler_get (instance : loc) (propName : string) : M value :=
  match propName_match propName with
  | None => throw TypeError
  | Some (isCreate, elemName) =>
      let className := className_of elemName in
      let validElement := window_hasOwnProperty h className in
      let elemName := Str.toLowerCase elemName in
      if negb validElement then
        let* prop := Get instance propName in
        match prop with
        | VFunction f => ret (VFunction (Bound f instance))
        | _ => ret prop
        end
      else ret (VFunction (Creator isCreate elemName instance))
  end.

(** [desc && desc.writable] *)
Definition is_writable (desc : option descriptor) : bool :=
  match desc with
  | Some d => d_writable d
  | None => false
  end.

(** [SSVGProxyHandler.set].  The function has no [return]: a call that
    completes yields [undefined]. *)
Definition SSVGProxyHandler_set (instance : loc) (propName : string) (val : value)
  : M value :=
  let* desc := getOwnPropertyDescriptor instance propName in
  (if is_writable desc
   then property_assign instance propName val
   else call_method (VObject instance) "setAttribute" [VString propName; val] ;;; ret tt) ;;;
  ret VUndefined.

(** [class SSVG]: the instance is created, the field [root] is initialised,
    then the body of the constructor runs. *)
Definition SSVG (attrs : mapping) : M value :=
  let* this := alloc (Object ∅ None) in
  let* root := createElementNS svgns "svg" in
  store_object this (Object {["root" := Descriptor (VObject root) true true true]} None) ;;;
  set_attributes (Get this "root") (entries attrs) ;;;
  SSVGProxy this.

(** ** Proxies at work *)

(** [SameValue(trapResult, stored)] for a result of the [get] trap.  A
    function the trap returns is a closure or a bound function made by that
    very call, hence never the object stored in the property. *)
Definition same_value (trapResult stored : value) : bool :=
  match trapResult with
  | VFunction _ => false
  | _ => bool_decide (trapResult = stored)
  end.

Definition frozen (d : descriptor) : bool :=
  negb (d_configurable d) && negb (d_writable d).

(** [[Get]] of a proxy with this handler: the trap, then the invariant of
    the language for a property of the target that is neither configurable
    nor writable. *)
Definition proxy_get (target : loc) (propName : string) : M value :=
  let* trapResult := SSVGProxyHandler_get target propName in
  let* targetDesc := getOwnPropertyDescriptor target propName in
  match targetDesc with
  | Some d =>
      if frozen d && negb (same_value trapResult (d_value d))
      then throw TypeError else ret trapResult
  | None => ret trapResult
  end.

(** [[Set]] of a proxy with this handler: the result of the trap is turned
    into a boolean; when it is false, [[Set]] reports failure at once. *)
Definition proxy_set (target : loc) (propName : string) (val : value) : M bool :=
  let* trapResult := SSVGProxyHandler_set target propName val in
  if negb (ToBoolean trapResult) then ret false
  else
    let* targetDesc := getOwnPropertyDescriptor target propName in
    match targetDesc with
    | Some d =>
        if frozen d && negb (bool_decide (val = d_value d))
        then throw TypeError else ret true
    | None => ret true
    end.

(** The expression [handle.propName]. *)
Definition read (handle : value) (propName : string) : M value :=
  match handle with
  | VProxy target => proxy_get target propName
  | VObject l => Get l propName
  | VUndefined | VNull => throw TypeError
  | _ => unmodelled
  end.

(** The statement [handle.propName = val] in strict or in sloppy code: a
    [[Set]] that reports failure is a [TypeError] in strict code and is
    ignored in sloppy code. *)
Definition assign (strict : bool) (handle : value) (propName : string) (val : value)
  : M unit :=
  match handle with
  | VProxy target =>
      let* ok := proxy_set target propName val in
      if negb ok && strict then throw TypeError else ret tt
  | VUndefined | VNull => throw TypeError
  | _ => unmodelled
  end.

(** The call [f(attrs)] of a value read from a handle.  Host methods and
    bound functions are the caller's business and not written out. *)
Definition call (f : value) (attrs : mapping) : M value :=
  match f with
  | VFunction (Creator isCreate elemName instance) =>
      creator isCreate elemName instance attrs
  | VFunction _ => unmodelled
  | _ => throw TypeError
  end.

(** The method call [handle.propName(attrs)]. *)
Definition invoke (handle : value) (propName : string) (attrs : mapping) : M value :=
  let* f := read handle propName in call f attrs.

End Library.

(** ** A host to run on *)

(** Elements named in the documentation of the library, and a few more,
    each with its global interface. *)
Definition example_elements : list (string * string) :=
  [ ("svg", "SVGSVGElement"); ("circle", "SVGCircleElement"); ("rect", "SVGRectElement");
    ("line", "SVGLineElement"); ("g", "SVGGElement"); ("path", "SVGPathElement");
    ("ellipse", "SVGEllipseElement"); ("text", "SVGTextElement");
    ("style", "SVGStyleElement"); ("title", "SVGTitleElement"); ("a", "SVGAElement");
    ("linearGradient", "SVGLinearGradientElement"); ("clipPath", "SVGClipPathElement") ].

Definition example_interfaces : list string := example_elements.*2.

(** The interface of an element by its local name; names are case
    sensitive, and an unknown one gives a plain [SVGElement]. *)
Definition interface_of (name : string) : string :=
  match List.find (λ e, String.eqb e.1 name) example_elements with
  | Some e => e.2
  | None => "SVGElement"
  end.

Definition is_digit (c : ascii) : bool :=
  let n := nat_of_ascii c in ((48 <=? n) && (n <=? 57))%nat.

Fixpoint has_char (p : ascii → bool) (s : string) : bool :=
  match s with
  | EmptyString => false
  | String c s' => p c || has_char p s'
  end.

Definition forbidden_in_attribute_name (c : ascii) : bool :=
  let n := nat_of_ascii c in
  ((n =? 0) || (n =? 9) || (n =? 10) || (n =? 12) || (n =? 13) || (n =? 32)
   || (n =? 47) || (n =? 61) || (n =? 62))%nat.

(** A small host after the manner of a browser: the registry above;
    element names that are words not starting with a digit; attribute names
    that are not empty and hold no white space, [/], [=] or [>];
    [setAttribute], [getAttribute] and [append] on the prototype chain of
    every element, [toString] and [hasOwnProperty] on that of a session.
    An object of the heap converts to a string of the form
    [[object Interface]].  A proxy with this handler does not convert (the
    trap calls [match] on the symbol it is asked for), and this host does
    not convert functions either (a browser would give their source
    text). *)
Definition example_host : Host := {|
  window_hasOwnProperty := λ name, bool_decide (name ∈ example_interfaces);
  valid_element_name := λ name,
    Str.all_word name && Str.nonempty name &&
    match name with String c _ => negb (is_digit c) | EmptyString => false end;
  valid_attribute_name := λ name,
    Str.nonempty name && negb (has_char forbidden_in_attribute_name name);
  node_inherited := λ _ name,
    if bool_decide (name ∈ ["setAttribute"; "getAttribute"; "append"])
    then VFunction (Native name) else VUndefined;
  session_inherited := λ name,
    if bool_decide (name ∈ ["toString"; "hasOwnProperty"])
    then VFunction (Native name) else VUndefined;
  ToString_object := λ st v,
    match v with
    | VObject l =>
        match st !! l with
        | Some (Object _ None) => Some "[object Object]"
        | Some (Object _ (Some n)) =>
            Some ("[object " ++ interface_of (localName n) ++ "]")
        | None => None
        end
    | _ => None
    end;
|}.

(** ** Notions used in the statements *)

(** A property name that is one word, and one that the expression reads as
    the marker [create] followed by a word. *)
Definition token (K : string) : bool := Str.nonempty K && Str.all_word K.

Definition marked (K : string) : bool :=
  match Str.strip_prefix "create" K with
  | Some rest => Str.nonempty (Str.take_word rest)
  | None => false
  end.

(** [v] converts to the string [s], whatever the heap. *)
Definition coerces (h : Host) (v : value) (s : string) : Prop :=
  ∀ st, ToString h v st = (Normal s, st).

(** The members [setAttribute] and [append] of an element are the host's:
    no own property hides them. *)
Definition host_member (h : Host) (o : object) (name : string) : Prop :=
  own o !! name = None ∧ inherited h o name = VFunction (Native name).

Definition with_attributes (n : node) (a : list (string * string)) : node :=
  Node (localName n) (namespaceURI n) a (children n) (parent n).

(** The attributes after the loop of a creator or of the constructor. *)
Definition apply_entries (a : list (string * string)) (kvs : list (string * string))
  : list (string * string) :=
  fold_left (λ acc kv, set_attr kv.1 kv.2 acc) kvs a.

(** The host gives every element the methods [setAttribute] and [append]
    of [Element.prototype]. *)
Definition standard_dom (h : Host) : Prop :=
  ∀ ln, node_inherited h ln "setAttribute" = VFunction (Native "setAttribute")
        ∧ node_inherited h ln "append" = VFunction (Native "append").

(** An entry the host takes: the value converts to [s] and the name is
    accepted. *)
Definition entry_ok (h : Host) (kv : string * value) (s : string) : Prop :=
  coerces h kv.2 s ∧ valid_attribute_name h kv.1 = true.

(** A receiver expression that yields the element [e] in every heap that
    differs from [st] at [e] only. *)
Definition stable_receiver (recv : M value) (e : loc) (st : heap) : Prop :=
  ∀ st', length st' = length st → (∀ l, l ≠ e → st' !! l = st !! l) →
         recv st' = (Normal (VObject e), st').

(** The element a creator builds, once its attributes are set. *)
Definition created (elemName : string) (a : list (string * string)) (p : option loc)
    (self : loc) : object :=
  Object {["root" := Descriptor (VObject self) false false false]}
         (Some (Node elemName svgns a [] p)).

(** What [get] returns when it falls back to the instance. *)
Definition fallback (instance : loc) (prop : value) : value :=
  match prop with
  | VFunction f => VFunction (Bound f instance)
  | _ => prop
  end.

(** The target has no own property [name] that is neither configurable nor
    writable. *)
Definition not_frozen (o : object) (name : string) : Prop :=
  ∀ d, own o !! name = Some d → frozen d = false.

(** The target has no such property holding a function. *)
Definition no_frozen_function (o : object) (name : string) : Prop :=
  ∀ d f, own o !! name = Some d → d_value d = VFunction f → frozen d = false.

Definition node_at (st : heap) (l : loc) : option node := st !! l ≫= dom.

(** No node of the heap has a child outside the heap. *)
Definition heap_closed (st : heap) : Prop :=
  ∀ l nd c, node_at st l = Some nd → c ∈ children nd → c < length st.

(** The node that [instance.root] is, with the host's [append]. *)
Definition attach_point (h : Host) (st : heap) (instance r : loc) : Prop :=
  ∃ io rp rn,
    st !! instance = Some io ∧ property_of h io "root" = VObject r ∧
    st !! r = Some (Object rp (Some rn)) ∧ rp !! "append" = None.

(** The session object and its container, as the constructor leaves them. *)
Definition session_object (root : loc) : object :=
  Object {["root" := Descriptor (VObject root) true true true]} None.

Definition container (a : list (string * string)) : object :=
  Object ∅ (Some (Node "svg" svgns a [] None)).

(** [n] reads of [handle.propName] in a row, with the values they give. *)
Fixpoint reads (h : Host) (handle : value) (propName : string) (n : nat)
  : M (list value) :=
  match n with
  | O => ret []
  | S n' =>
      let* v := read h handle propName in
      let* vs := reads h handle propName n' in
      ret (v :: vs)
  end.

(** The heap after [new SSVG()] in an empty heap: the session at 0, its
    container at 1. *)
Definition session_heap : heap := (SSVG example_host None []).2.

(** The heap after [let g = session.g()]: the group at 2. *)
Definition group_heap : heap := (invoke example_host (VProxy 0) "g" None session_heap).2.

(** The heap after [let circle = session.circle()]: the circle at 2. *)
Definition circle_heap : heap :=
  (invoke example_host (VProxy 0) "circle" None session_heap).2.

(** An element as [createElementNS] and the attribute loop leave it:
    attributes, but no own property, no child and no parent. *)
Definition bare_element (elemName : string) (a : list (string * string)) : object :=
  Object ∅ (Some (Node elemName svgns a [] None)).

(** The shape of the document tree in a heap: for every object, whether it
    is a node, and then its local name, its children and its parent. *)
Definition tree_of (st : heap) : list (option (string * list loc * option loc)) :=
  (λ o, (λ n, (localName n, children n, parent n)) <$> dom o) <$> st.

(** From [st] to [st'] the tree has kept its shape and every object but [t]
    is as it was. *)
Definition touches_only (t : loc) (st st' : heap) : Prop :=
  tree_of st' = tree_of st ∧ ∀ l, l ≠ t → st' !! l = st !! l.

(** Every run of [c] ends in a heap related by [R] to the heap it started
    in, however it ends. *)
Definition keeps {A} (R : heap → heap → Prop) (c : M A) : Prop :=
  ∀ st, R st (c st).2.

(** * Properties *)

(** ** The name analysis *)

Lemma token_take_word K : token K = true → Str.take_word K = K ∧ Str.nonempty K = true.
Proof.
  unfold token, Str.all_word. intros HK.
  apply andb_prop in HK as [Hne Hw]. split; [by apply String.eqb_eq | done].
Qed.

Lemma propName_match_here s r : match_here s = Some r → propName_match s = Some r.
Proof. intros Hm. destruct s; cbn [propName_match]; by rewrite Hm. Qed.

Lemma propName_match_bare K :
  token K = true → marked K = false → propName_match K = Some (false, K).
Proof.
  intros HK Hm. apply propName_match_here.
  destruct (token_take_word K HK) as [Hw Hne].
  unfold match_here, marked in *. cbv zeta.
  destruct (Str.strip_prefix "create" K); rewrite ?Hm, Hw, Hne; done.
Qed.

Lemma propName_match_create K :
  token K = true → propName_match ("create" ++ K) = Some (true, K).
Proof.
  intros HK. apply propName_match_here.
  destruct (token_take_word K HK) as [Hw Hne].
  unfold match_here. cbv zeta.
  change (Str.strip_prefix "create" ("create" ++ K)) with (Some K).
  cbv beta iota zeta. by rewrite Hw, Hne.
Qed.

(** What the expression matched is a word, never empty. *)
Lemma take_word_idem s : Str.take_word (Str.take_word s) = Str.take_word s.
Proof.
  induction s as [|c s IH]; [done|]. cbn [Str.take_word].
  destruct (Str.is_word_char c) eqn:Hc; [|done].
  cbn [Str.take_word]. by rewrite Hc, IH.
Qed.

Lemma match_here_token s isCreate w : match_here s = Some (isCreate, w) → token w = true.
Proof.
  unfold match_here, token, Str.all_word. intros Hm.
  assert (Hplain :
    (if Str.nonempty (Str.take_word s) then Some (false, Str.take_word s) else None)
      = Some (isCreate, w) →
    Str.nonempty w && (Str.take_word w =? w)%string = true).
  { destruct (Str.nonempty (Str.take_word s)) eqn:Hne; [|done].
    intros [= <- <-]. rewrite Hne, take_word_idem. by rewrite String.eqb_refl. }
  destruct (Str.strip_prefix "create" s) as [rest|]; [|by apply Hplain].
  destruct (Str.nonempty (Str.take_word rest)) eqn:Hne; [|by apply Hplain].
  injection Hm as <- <-. rewrite Hne, take_word_idem. by rewrite String.eqb_refl.
Qed.

Lemma propName_match_token s isCreate w :
  propName_match s = Some (isCreate, w) → token w = true.
Proof.
  induction s as [|c s IH]; cbn [propName_match].
  - destruct (match_here "") as [r|] eqn:Hm; [|done].
    intros [= ->]. by eapply match_here_token.
  - destruct (match_here (String c s)) as [r|] eqn:Hm.
    + intros [= ->]. by eapply match_here_token.
    + apply IH.
Qed.

(** ** Running the calls *)

Lemma bind_unfold {A B} (c : M A) (k : A → M B) st :
  bind c k st =
  match c st with
  | (Normal a, st') => k a st'
  | (Throw e, st') => (Throw e, st')
  | (Unmodelled, st') => (Unmodelled, st')
  end.
Proof. reflexivity. Qed.

Lemma bind_normal {A B} (c : M A) (k : A → M B) st a st' :
  c st = (Normal a, st') → bind c k st = k a st'.
Proof. intros Hc. by rewrite bind_unfold, Hc. Qed.

Lemma bind_throw {A B} (c : M A) (k : A → M B) st e st' :
  c st = (Throw e, st') → bind c k st = (Throw e, st').
Proof. intros Hc. by rewrite bind_unfold, Hc. Qed.

Section Library_facts.

Context (h : Host).

Lemma lookup_object_Some st l o :
  st !! l = Some o → lookup_object l st = (Normal o, st).
Proof. intros Hl. unfold lookup_object. by rewrite Hl. Qed.

Lemma Get_Some st l o name :
  st !! l = Some o →
  Get h l name st = (Normal (property_of h o name), st).
Proof.
  intros Hl. unfold Get.
  by rewrite (bind_normal _ _ _ _ _ (lookup_object_Some _ _ _ Hl)).
Qed.

Lemma getOwnPropertyDescriptor_Some st l o name :
  st !! l = Some o →
  getOwnPropertyDescriptor l name st = (Normal (own o !! name), st).
Proof.
  intros Hl. unfold getOwnPropertyDescriptor.
  by rewrite (bind_normal _ _ _ _ _ (lookup_object_Some _ _ _ Hl)).
Qed.

Lemma update_node_Some st l props n f :
  st !! l = Some (Object props (Some n)) →
  update_node l f st = <[l := Object props (Some (f n))]> st.
Proof. intros Hl. unfold update_node. by rewrite Hl. Qed.

Lemma native_call_setAttribute this args :
  native_call h "setAttribute" this args = Element_setAttribute h this args.
Proof. reflexivity. Qed.

Lemma native_call_append this args :
  native_call h "append" this args = Element_append this args.
Proof. reflexivity. Qed.

(** [elem.setAttribute(k, v)] on an element that has the host's method. *)
Lemma call_setAttribute st e props nd k v s :
  st !! e = Some (Object props (Some nd)) →
  host_member h (Object props (Some nd)) "setAttribute" →
  coerces h v s →
  valid_attribute_name h k = true →
  call_method h (VObject e) "setAttribute" [VString k; v] st =
  (Normal VUndefined,
   <[e := Object props (Some (with_attributes nd (set_attr k s (attributes nd))))]> st).
Proof.
  intros He [Hown Hinh] Hv Hk. unfold call_method.
  rewrite (bind_normal _ _ _ _ _ (Get_Some _ _ _ "setAttribute" He)).
  unfold property_of. cbn [own] in *. rewrite Hown, Hinh, native_call_setAttribute.
  unfold Element_setAttribute.
  rewrite (bind_normal _ _ _ _ _ (lookup_object_Some _ _ _ He)). cbn [dom].
  rewrite (bind_normal (ToString h (VString k)) _ st k st) by reflexivity.
  rewrite (bind_normal _ _ _ _ _ (Hv st)). rewrite Hk.
  unfold bind, read_heap, write_heap, ret.
  by rewrite (update_node_Some _ _ _ _ _ He).
Qed.

(** When the name is refused the call raises the host's error and the
    element is as before. *)
Lemma call_setAttribute_invalid st e props nd k v s :
  st !! e = Some (Object props (Some nd)) →
  host_member h (Object props (Some nd)) "setAttribute" →
  coerces h v s →
  valid_attribute_name h k = false →
  call_method h (VObject e) "setAttribute" [VString k; v] st =
  (Throw InvalidCharacterError, st).
Proof.
  intros He [Hown Hinh] Hv Hk. unfold call_method.
  rewrite (bind_normal _ _ _ _ _ (Get_Some _ _ _ "setAttribute" He)).
  unfold property_of. cbn [own] in *. rewrite Hown, Hinh, native_call_setAttribute.
  unfold Element_setAttribute.
  rewrite (bind_normal _ _ _ _ _ (lookup_object_Some _ _ _ He)). cbn [dom].
  rewrite (bind_normal (ToString h (VString k)) _ st k st) by reflexivity.
  rewrite (bind_normal _ _ _ _ _ (Hv st)). by rewrite Hk.
Qed.

(** [parent.append(child)] for a child that has neither parent nor
    children. *)
Lemma call_append st r rp rn c cp cn :
  st !! r = Some (Object rp (Some rn)) →
  host_member h (Object rp (Some rn)) "append" →
  st !! c = Some (Object cp (Some cn)) →
  children cn = [] → parent cn = None → c ≠ r →
  call_method h (VObject r) "append" [VObject c] st =
  (Normal VUndefined,
   <[c := Object cp (Some (set_parent r cn))]>
     (<[r := Object rp (Some (add_last_child c rn))]> st)).
Proof.
  intros Hr [Hown Hinh] Hc Hch Hpar Hne. unfold call_method.
  rewrite (bind_normal _ _ _ _ _ (Get_Some _ _ _ "append" Hr)).
  unfold property_of. cbn [own] in *. rewrite Hown, Hinh, native_call_append.
  unfold Element_append.
  rewrite (bind_normal _ _ _ _ _ (lookup_object_Some _ _ _ Hr)). cbn [dom].
  rewrite (bind_normal _ _ _ _ _ (lookup_object_Some _ _ _ Hc)). cbn [dom].
  unfold bind at 1, read_heap.
  assert (contains (length st) st c r = false) as ->.
  { destruct (length st); cbn [contains]; rewrite ?Hc, ?Hch;
      cbn [existsb]; rewrite orb_false_r; by apply Nat.eqb_neq. }
  rewrite Hpar. unfold bind, write_heap, ret.
  rewrite (update_node_Some _ _ _ _ _ Hr).
  rewrite (update_node_Some _ c cp cn); [done|].
  by rewrite list_lookup_insert_ne.
Qed.

Lemma with_attributes_id nd : with_attributes nd (attributes nd) = nd.
Proof. by destruct nd. Qed.

Lemma set_attributes_run recv e props attrs strs :
  standard_dom h →
  props !! "setAttribute" = None →
  Forall2 (entry_ok h) attrs strs →
  ∀ nd st,
    st !! e = Some (Object props (Some nd)) →
    stable_receiver recv e st →
    set_attributes h recv attrs st =
    (Normal tt,
     <[e := Object props
              (Some (with_attributes nd (apply_entries (attributes nd) (zip attrs.*1 strs))))]> st).
Proof.
  intros Hdom Hown Hall. induction Hall as [|[k v] s attrs strs [Hv Hk] _ IH];
    intros nd st He Hrecv.
  - cbn. by rewrite with_attributes_id, list_insert_id.
  - cbn [set_attributes].
    rewrite (bind_normal _ _ _ _ _ (Hrecv st eq_refl (λ _ _, eq_refl))).
    erewrite bind_normal; last first.
    { eapply call_setAttribute; [exact He| |exact Hv|exact Hk].
      split; [exact Hown|apply Hdom]. }
    erewrite IH; last first.
    { intros st' Hlen Hst'. apply Hrecv.
      - by rewrite Hlen, length_insert.
      - intros l Hl. by rewrite Hst', list_lookup_insert_ne. }
    { apply list_lookup_insert_eq. by eapply lookup_lt_Some. }
    by rewrite list_insert_insert_eq.
Qed.

Lemma insert_fresh (st : heap) o o' : <[length st := o']> (st ++ [o])%list = (st ++ [o'])%list.
Proof.
  rewrite insert_app_r_alt by lia. by rewrite Nat.sub_diag.
Qed.

Lemma insert_fresh_at (st : heap) n o o' :
  n = length st → <[n := o']> (st ++ [o])%list = (st ++ [o'])%list.
Proof. intros ->. apply insert_fresh. Qed.

Lemma lookup_fresh (st : heap) o : (st ++ [o])%list !! length st = Some o.
Proof. by apply list_lookup_middle. Qed.

Lemma creator_prefix elemName attrs strs st :
  standard_dom h →
  valid_element_name h elemName = true →
  Forall2 (entry_ok h) (entries attrs) strs →
  (let* elem := createElementNS h svgns elemName in
   set_attributes h (ret (VObject elem)) (entries attrs) ;;; ret elem) st =
  (Normal (length st),
   (st ++ [Object ∅ (Some (Node elemName svgns
                              (apply_entries [] (zip (entries attrs).*1 strs)) [] None))])%list).
Proof.
  intros Hdom Hname Hall. unfold createElementNS. rewrite Hname.
  rewrite (bind_normal _ _ st (length st) (st ++ [Object ∅ (Some (Node elemName svgns [] [] None))])%list)
    by reflexivity.
  erewrite bind_normal; last first.
  { eapply (set_attributes_run _ (length st) ∅); [done|apply lookup_empty|done| |].
    - apply lookup_fresh.
    - by intros st' _ _. }
  unfold ret. by rewrite insert_fresh.
Qed.

Lemma SSVGElementProxy_fresh st e nd :
  st !! e = Some (Object ∅ (Some nd)) →
  SSVGElementProxy e st =
  (Normal (VProxy e),
   <[e := Object {["root" := Descriptor (VObject e) false false false]} (Some nd)]> st).
Proof.
  intros He. unfold SSVGElementProxy, defineProperty_value.
  rewrite bind_unfold, (bind_normal _ _ _ _ _ (lookup_object_Some _ _ _ He)).
  cbn [own dom]. rewrite lookup_empty. unfold store_object, ret.
  by rewrite insert_empty.
Qed.

(** A creator made for a name with the marker: the element is built and
    nothing else in the heap changes. *)
Lemma creator_detached elemName instance attrs strs st :
  standard_dom h →
  valid_element_name h elemName = true →
  Forall2 (entry_ok h) (entries attrs) strs →
  creator h true elemName instance attrs st =
  (Normal (VProxy (length st)),
   (st ++ [created elemName (apply_entries [] (zip (entries attrs).*1 strs)) None
             (length st)])%list).
Proof.
  intros Hdom Hname Hall.
  pose proof (creator_prefix elemName attrs strs st Hdom Hname Hall) as Hpre.
  unfold creator. rewrite bind_unfold in Hpre; rewrite bind_unfold.
  destruct (createElementNS h svgns elemName st) as [[elem| |] st0]; [|done..].
  rewrite bind_unfold in Hpre; rewrite bind_unfold.
  destruct (set_attributes h (ret (VObject elem)) (entries attrs) st0) as [[[]| |] st1];
    [|done..].
  injection Hpre as -> ->. cbn [negb].
  rewrite (bind_normal (ret ()) _ _ () _ eq_refl).
  rewrite (SSVGElementProxy_fresh _ _ _ (lookup_fresh _ _)).
  by rewrite insert_fresh.
Qed.

(** A creator made for a bare name: the element is built and becomes the
    last child of the node that [instance.root] is. *)
Lemma creator_attached elemName instance io r rp rn attrs strs st :
  standard_dom h →
  valid_element_name h elemName = true →
  Forall2 (entry_ok h) (entries attrs) strs →
  st !! instance = Some io →
  property_of h io "root" = VObject r →
  st !! r = Some (Object rp (Some rn)) →
  rp !! "append" = None →
  creator h false elemName instance attrs st =
  (Normal (VProxy (length st)),
   (<[r := Object rp (Some (add_last_child (length st) rn))]> st ++
    [created elemName (apply_entries [] (zip (entries attrs).*1 strs)) (Some r)
       (length st)])%list).
Proof.
  intros Hdom Hname Hall Hi Hroot Hr Happ.
  pose proof (creator_prefix elemName attrs strs st Hdom Hname Hall) as Hpre.
  unfold creator. rewrite bind_unfold in Hpre; rewrite bind_unfold.
  destruct (createElementNS h svgns elemName st) as [[elem| |] st0]; [|done..].
  rewrite bind_unfold in Hpre; rewrite bind_unfold.
  destruct (set_attributes h (ret (VObject elem)) (entries attrs) st0) as [[[]| |] st1];
    [|done..].
  injection Hpre as -> ->. cbn [negb].
  pose proof (lookup_lt_Some _ _ _ Hr) as Hrlt.
  pose proof (lookup_lt_Some _ _ _ Hi) as Hilt.
  set (o1 := Object ∅ _).
  assert (Hi1 : (st ++ [o1])%list !! instance = Some io) by by rewrite lookup_app_l.
  assert (Hr1 : (st ++ [o1])%list !! r = Some (Object rp (Some rn))) by by rewrite lookup_app_l.
  erewrite (bind_normal (bind (Get h instance "root") _)); last first.
  { rewrite (bind_normal _ _ _ _ _ (Get_Some _ _ _ "root" Hi1)), Hroot.
    erewrite bind_normal; [reflexivity|].
    eapply call_append; [exact Hr1| |apply lookup_fresh|done|done|lia].
    split; [exact Happ|apply Hdom]. }
  erewrite SSVGElementProxy_fresh; last first.
  { apply list_lookup_insert_eq. rewrite length_insert, length_app. cbn. lia. }
  rewrite list_insert_insert_eq, insert_app_l by done.
  by rewrite insert_fresh_at by by rewrite length_insert.
Qed.

(** ** The traps *)

Lemma get_valid instance propName isCreate elemName st :
  propName_match propName = Some (isCreate, elemName) →
  window_hasOwnProperty h (className_of elemName) = true →
  SSVGProxyHandler_get h instance propName st =
  (Normal (VFunction (Creator isCreate (Str.toLowerCase elemName) instance)), st).
Proof. intros Hm Hw. unfold SSVGProxyHandler_get. by rewrite Hm, Hw. Qed.

Lemma get_invalid instance o propName isCreate elemName st :
  propName_match propName = Some (isCreate, elemName) →
  window_hasOwnProperty h (className_of elemName) = false →
  st !! instance = Some o →
  SSVGProxyHandler_get h instance propName st =
  (Normal (fallback instance (property_of h o propName)), st).
Proof.
  intros Hm Hw Ho. unfold SSVGProxyHandler_get. rewrite Hm, Hw. cbn [negb].
  rewrite (bind_normal _ _ _ _ _ (Get_Some _ _ _ propName Ho)).
  by destruct (property_of h o propName).
Qed.

Lemma get_no_match instance propName st :
  propName_match propName = None →
  SSVGProxyHandler_get h instance propName st = (Throw TypeError, st).
Proof. intros Hm. unfold SSVGProxyHandler_get. by rewrite Hm. Qed.

Lemma proxy_get_valid target o propName isCreate elemName st :
  propName_match propName = Some (isCreate, elemName) →
  window_hasOwnProperty h (className_of elemName) = true →
  st !! target = Some o →
  not_frozen o propName →
  proxy_get h target propName st =
  (Normal (VFunction (Creator isCreate (Str.toLowerCase elemName) target)), st).
Proof.
  intros Hm Hw Ho Hfr. unfold proxy_get.
  rewrite (bind_normal _ _ _ _ _ (get_valid target _ _ _ st Hm Hw)).
  rewrite (bind_normal _ _ _ _ _ (getOwnPropertyDescriptor_Some _ _ _ propName Ho)).
  destruct (own o !! propName) as [d|] eqn:Hd; [|done].
  by rewrite (Hfr d Hd).
Qed.

Lemma proxy_get_invalid target o propName isCreate elemName st :
  propName_match propName = Some (isCreate, elemName) →
  window_hasOwnProperty h (className_of elemName) = false →
  st !! target = Some o →
  no_frozen_function o propName →
  proxy_get h target propName st =
  (Normal (fallback target (property_of h o propName)), st).
Proof.
  intros Hm Hw Ho Hfr. unfold proxy_get.
  rewrite (bind_normal _ _ _ _ _ (get_invalid target _ _ _ _ st Hm Hw Ho)).
  rewrite (bind_normal _ _ _ _ _ (getOwnPropertyDescriptor_Some _ _ _ propName Ho)).
  unfold property_of.
  destruct (own o !! propName) as [d|] eqn:Hd; [|done].
  destruct (d_value d) as [| | | | | | |f] eqn:Hv; cbn [fallback same_value];
    rewrite ?bool_decide_eq_true_2, ?andb_false_r by done; try done.
  by rewrite (Hfr d f Hd Hv).
Qed.

Lemma match_root : propName_match "root" = Some (false, "root").
Proof. reflexivity. Qed.

(** Reading [root] through a handle, on a host without an interface
    [SVGRootElement]. *)
Lemma read_root target o st :
  window_hasOwnProperty h "SVGRootElement" = false →
  st !! target = Some o →
  no_frozen_function o "root" →
  read h (VProxy target) "root" st =
  (Normal (fallback target (property_of h o "root")), st).
Proof. intros Hw Ho Hfr. by eapply proxy_get_invalid; [apply match_root|..]. Qed.

Lemma created_root elemName a p self :
  property_of h (created elemName a p self) "root" = VObject self.
Proof. unfold property_of, created. cbn [own]. by rewrite lookup_singleton_eq. Qed.

Lemma created_no_frozen_function elemName a p self :
  no_frozen_function (created elemName a p self) "root".
Proof.
  intros d f. unfold created. cbn [own]. rewrite lookup_singleton_eq.
  by intros [= <-].
Qed.

(** The method call [handle.K(attrs)] for a bare known kind [K]. *)
Lemma invoke_bare t o r rp rn K attrs strs st :
  standard_dom h →
  token K = true → marked K = false →
  window_hasOwnProperty h (className_of K) = true →
  valid_element_name h (Str.toLowerCase K) = true →
  Forall2 (entry_ok h) (entries attrs) strs →
  st !! t = Some o →
  not_frozen o K →
  property_of h o "root" = VObject r →
  st !! r = Some (Object rp (Some rn)) →
  rp !! "append" = None →
  invoke h (VProxy t) K attrs st =
  (Normal (VProxy (length st)),
   (<[r := Object rp (Some (add_last_child (length st) rn))]> st ++
    [created (Str.toLowerCase K) (apply_entries [] (zip (entries attrs).*1 strs))
       (Some r) (length st)])%list).
Proof.
  intros Hdom HK Hm Hw Hname Hall Ht Hfr Hroot Hr Happ.
  unfold invoke, read.
  rewrite (bind_normal _ _ _ _ _
             (proxy_get_valid t o K false K st (propName_match_bare K HK Hm) Hw Ht Hfr)).
  cbn [call]. by eapply creator_attached.
Qed.

(** The method call [handle.createK(attrs)] for a known kind [K]. *)
Lemma invoke_create t o K attrs strs st :
  standard_dom h →
  token K = true →
  window_hasOwnProperty h (className_of K) = true →
  valid_element_name h (Str.toLowerCase K) = true →
  Forall2 (entry_ok h) (entries attrs) strs →
  st !! t = Some o →
  not_frozen o ("create" ++ K) →
  invoke h (VProxy t) ("create" ++ K) attrs st =
  (Normal (VProxy (length st)),
   (st ++ [created (Str.toLowerCase K) (apply_entries [] (zip (entries attrs).*1 strs))
             None (length st)])%list).
Proof.
  intros Hdom HK Hw Hname Hall Ht Hfr.
  unfold invoke, read.
  rewrite (bind_normal _ _ _ _ _
             (proxy_get_valid t o _ true K st (propName_match_create K HK) Hw Ht Hfr)).
  cbn [call]. by eapply creator_detached.
Qed.

End Library_facts.

Lemma node_at_fresh (st : heap) : node_at st (length st) = None.
Proof. unfold node_at. by rewrite lookup_ge_None_2. Qed.

Lemma bind_normal_inv {A B} (c : M A) (k : A → M B) st b st' :
  bind c k st = (Normal b, st') →
  ∃ a st1, c st = (Normal a, st1) ∧ k a st1 = (Normal b, st').
Proof.
  rewrite bind_unfold. destruct (c st) as [[a| |] st1]; [|done..]. eauto.
Qed.

(** Whenever a creator returns, it returns the wrapper of the element it
    has just made, with or without the marker. *)
Lemma creator_returns_wrapper h isCreate elemName instance attrs st v st' :
  creator h isCreate elemName instance attrs st = (Normal v, st') →
  v = VProxy (length st).
Proof.
  unfold creator. intros Hc.
  apply bind_normal_inv in Hc as (elem & st1 & Helem & Hc).
  apply bind_normal_inv in Hc as ([] & st2 & _ & Hc).
  apply bind_normal_inv in Hc as ([] & st3 & _ & Hc).
  unfold SSVGElementProxy in Hc.
  apply bind_normal_inv in Hc as ([] & st4 & _ & Hc).
  injection Hc as <- <-.
  unfold createElementNS in Helem.
  destruct (valid_element_name h elemName); [|done].
  by injection Helem as <- <-.
Qed.

(** ** The example host at work *)

Lemma example_standard_dom : standard_dom example_host.
Proof. intros ln. by split. Qed.

(** The largest safe integer has its numeral as its string; the string of
    2^60 is not written out. *)
Example number_strings :
  ToString example_host (VNumber 9007199254740991) [] = (Normal "9007199254740991", []) ∧
  ToString example_host (VNumber (-50)) [] = (Normal "-50", []) ∧
  ToString example_host (VNumber (2 ^ 60)) [] = (Unmodelled, []).
Proof. by repeat split. Qed.

(** ** The claims *)

(** C1.  For a known element kind [K], the call [session.K()] creates a
    node that was not in the heap, with local name the lower-cased [K] and
    no attributes; the node becomes the last child of the session's root
    container, whose other children stay; the call returns a handle, and
    reading [root] on that handle gives the new node. *)
Theorem kind_call_appends_to_session_root (h : Host) (st : heap) (s r : loc)
    (props rp : gmap string descriptor) (rn : node) (K : string) :
  standard_dom h →
  window_hasOwnProperty h "SVGRootElement" = false →
  token K = true → marked K = false →
  window_hasOwnProperty h (className_of K) = true →
  valid_element_name h (Str.toLowerCase K) = true →
  st !! s = Some (Object props None) →
  property_of h (Object props None) "root" = VObject r →
  not_frozen (Object props None) K →
  st !! r = Some (Object rp (Some rn)) →
  rp !! "append" = None →
  ∃ n st',
    invoke h (VProxy s) K None st = (Normal (VProxy n), st') ∧
    node_at st n = None ∧
    node_at st' n = Some (Node (Str.toLowerCase K) svgns [] [] (Some r)) ∧
    (∃ rn', node_at st' r = Some rn' ∧ children rn' = (children rn ++ [n])%list) ∧
    read h (VProxy n) "root" st' = (Normal (VObject n), st').
Proof.
  intros Hdom Hroot HK Hm Hw Hname Hs Hr Hfr Hrn Happ.
  exists (length st). eexists. split.
  { eapply (invoke_bare h s _ r rp rn K None []); eauto; constructor. }
  pose proof (lookup_lt_Some _ _ _ Hrn) as Hlt.
  assert (Hn : ∀ (o' : object) (st0 : heap),
             length st0 = length st → (st0 ++ [o'])%list !! length st = Some o').
  { intros o' st0 <-. apply lookup_fresh. }
  split; [apply node_at_fresh|]. split; [|split].
  - unfold node_at. by rewrite Hn by apply length_insert.
  - exists (add_last_child (length st) rn). split; [|done].
    unfold node_at. rewrite lookup_app_l by by rewrite length_insert.
    by rewrite list_lookup_insert_eq.
  - erewrite read_root; [|done| |].
    + by rewrite created_root.
    + by apply Hn, length_insert.
    + apply created_no_frozen_function.
Qed.

(** [session.circle()] on the session of [session_heap]: the circle is
    node 2, the only child of the container, node 1. *)
Lemma kind_call_appends_to_session_root_witness :
  ∃ n st',
    invoke example_host (VProxy 0) "circle" None session_heap = (Normal (VProxy n), st') ∧
    node_at session_heap n = None ∧
    node_at st' n = Some (Node "circle" svgns [] [] (Some 1)) ∧
    (∃ rn', node_at st' 1 = Some rn' ∧ children rn' = [n]) ∧
    read example_host (VProxy n) "root" st' = (Normal (VObject n), st').
Proof.
  eapply (kind_call_appends_to_session_root example_host session_heap 0 1
            {["root" := Descriptor (VObject 1) true true true]} ∅
            (Node "svg" svgns [] [] None) "circle");
    try reflexivity.
  - apply example_standard_dom.
  - intros d. vm_compute. discriminate.
Defined.

(** The local name is the lower-cased word, also for a kind written in
    camel case. *)
Example camel_case_kind_is_lower_cased :
  (localName <$> node_at (invoke example_host (VProxy 0) "linearGradient" None session_heap).2 2)
  = Some "lineargradient".
Proof. reflexivity. Qed.

(** Whenever [SSVGElementProxy] returns, it returns the proxy of the
    element, and the element has the own property [root] holding the
    element itself. *)
Lemma SSVGElementProxy_returns e st v st' :
  SSVGElementProxy e st = (Normal v, st') →
  v = VProxy e ∧
  ∃ o d, st' !! e = Some o ∧ own o !! "root" = Some d ∧ d_value d = VObject e.
Proof.
  unfold SSVGElementProxy. intros Hp.
  apply bind_normal_inv in Hp as ([] & st1 & Hdef & Hret).
  injection Hret as <- <-. split; [done|].
  unfold defineProperty_value in Hdef.
  apply bind_normal_inv in Hdef as (o & st0 & Hlook & Hdef).
  unfold lookup_object in Hlook.
  destruct (st !! e) as [o0|] eqn:He; [|done]. injection Hlook as -> <-.
  pose proof (lookup_lt_Some _ _ _ He) as Hlt.
  destruct (own o !! "root") as [d|] eqn:Hd.
  - destruct (d_configurable d || d_writable d).
    + injection Hdef as <-. eexists _, _. split; [by apply list_lookup_insert_eq|].
      cbn [own]. by rewrite lookup_insert_eq.
    + destruct (bool_decide (d_value d = VObject e)) eqn:Hb; [|done].
      injection Hdef as <-. exists o, d. split; [done|]. split; [done|].
      by apply bool_decide_eq_true in Hb.
  - injection Hdef as <-. eexists _, _. split; [by apply list_lookup_insert_eq|].
    cbn [own]. by rewrite lookup_insert_eq.
Qed.

(** Whenever a creator returns, with or without the marker, it returns an
    element wrapper of the element it has just made: the proxy of the new
    object, which has [root] as an own property holding that object. *)
Lemma creator_returns_element_wrapper h isCreate elemName instance attrs st v st' :
  creator h isCreate elemName instance attrs st = (Normal v, st') →
  v = VProxy (length st) ∧
  ∃ o d, st' !! length st = Some o ∧ own o !! "root" = Some d
         ∧ d_value d = VObject (length st).
Proof.
  unfold creator. intros Hc.
  apply bind_normal_inv in Hc as (elem & st1 & Helem & Hc).
  apply bind_normal_inv in Hc as ([] & st2 & _ & Hc).
  apply bind_normal_inv in Hc as ([] & st3 & _ & Hc).
  unfold createElementNS in Helem.
  destruct (valid_element_name h elemName); [|done].
  injection Helem as <- <-.
  by apply SSVGElementProxy_returns in Hc.
Qed.

(** C2.  For a known element kind [K], the call [session.createK()]
    creates a node that was not in the heap, with local name the lower-cased
    [K], without attributes, without parent; every object that was in the
    heap is as before, so that no node has the new one among its children.
    The call returns an element wrapper around the new node: the proxy of
    the new object, which has the own property [root] holding the node, so
    that [root] read through the returned handle is the node.  Every
    creator that returns, with or without the marker, returns such a
    wrapper of the object it has just made. *)
Theorem create_call_is_detached (h : Host) (st : heap) (t : loc) (o : object)
    (K : string) :
  standard_dom h →
  token K = true →
  window_hasOwnProperty h (className_of K) = true →
  valid_element_name h (Str.toLowerCase K) = true →
  st !! t = Some o →
  not_frozen o ("create" ++ K) →
  ∃ n st',
    invoke h (VProxy t) ("create" ++ K) None st = (Normal (VProxy n), st') ∧
    node_at st n = None ∧
    node_at st' n = Some (Node (Str.toLowerCase K) svgns [] [] None) ∧
    (own <$> st' !! n) = Some {["root" := Descriptor (VObject n) false false false]} ∧
    (window_hasOwnProperty h "SVGRootElement" = false →
     read h (VProxy n) "root" st' = (Normal (VObject n), st')) ∧
    (∀ l, l ≠ n → st' !! l = st !! l) ∧
    (heap_closed st → ∀ l nd, node_at st' l = Some nd → n ∉ children nd) ∧
    (∀ isCreate attrs st1 v st2,
       creator h isCreate (Str.toLowerCase K) t attrs st1 = (Normal v, st2) →
       v = VProxy (length st1) ∧
       ∃ o' d, st2 !! length st1 = Some o' ∧ own o' !! "root" = Some d
               ∧ d_value d = VObject (length st1)) ∧
    (∀ isCreate attrs st1 v st2,
       window_hasOwnProperty h "SVGRootElement" = false →
       creator h isCreate (Str.toLowerCase K) t attrs st1 = (Normal v, st2) →
       read h v "root" st2 = (Normal (VObject (length st1)), st2)).
Proof.
  intros Hdom HK Hw Hname Ht Hfr.
  exists (length st). eexists. split.
  { eapply (invoke_create h t o K None []); eauto; constructor. }
  assert (Hother : ∀ (o' : object) l, l ≠ length st → (st ++ [o'])%list !! l = st !! l).
  { intros o' l Hl. destruct (decide (l < length st)).
    - by rewrite lookup_app_l.
    - rewrite !lookup_ge_None_2; [done|lia|rewrite length_app; cbn; lia]. }
  split; [apply node_at_fresh|].
  split; [|split; [|split; [|split; [|split; [|split]]]]].
  - unfold node_at. by rewrite lookup_fresh.
  - by rewrite lookup_fresh.
  - intros Hnoroot. erewrite read_root; [|done|apply lookup_fresh|].
    + by rewrite created_root.
    + apply created_no_frozen_function.
  - intros l Hl. by apply Hother.
  - intros Hclosed l nd Hnd Hin.
    destruct (decide (l = length st)) as [->|Hl].
    + unfold node_at in Hnd. rewrite lookup_fresh in Hnd.
      injection Hnd as <-. cbn in Hin. by apply elem_of_nil in Hin.
    + unfold node_at in Hnd. rewrite Hother in Hnd by done.
      specialize (Hclosed l nd (length st) Hnd Hin). lia.
  - intros isCreate attrs st1 v st2. apply creator_returns_element_wrapper.
  - intros isCreate attrs st1 v st2 Hnoroot Hc.
    apply creator_returns_element_wrapper in Hc as (-> & o' & d & Ho' & Hd & Hv).
    erewrite read_root; [|done|exact Ho'|].
    + unfold property_of. by rewrite Hd, Hv.
    + intros d' f. rewrite Hd. intros [= <-]. by rewrite Hv.
Qed.

(** [session.createCircle()] on the session of [session_heap]: the circle
    is node 2, without parent; the returned handle is its wrapper, and
    [root] read through it is the circle. *)
Lemma create_call_is_detached_witness :
  ∃ n st',
    invoke example_host (VProxy 0) "createCircle" None session_heap
      = (Normal (VProxy n), st') ∧
    node_at session_heap n = None ∧
    node_at st' n = Some (Node "circle" svgns [] [] None) ∧
    (own <$> st' !! n) = Some {["root" := Descriptor (VObject n) false false false]} ∧
    read example_host (VProxy n) "root" st' = (Normal (VObject n), st') ∧
    (∀ l, l ≠ n → st' !! l = session_heap !! l) ∧
    (∀ l nd, node_at st' l = Some nd → n ∉ children nd).
Proof.
  assert (Hfr : not_frozen (session_object 1) "createCircle").
  { intros d. unfold session_object. cbn [own]. by rewrite lookup_singleton_ne. }
  assert (Hclosed : heap_closed session_heap).
  { intros [|[|l]] nd c; vm_compute; [discriminate| |discriminate].
    intros [= <-] Hin. by apply elem_of_nil in Hin. }
  destruct (create_call_is_detached example_host session_heap 0 (session_object 1) "Circle"
              example_standard_dom eq_refl eq_refl eq_refl eq_refl Hfr)
    as (n & st' & Hcall & Hnew & Hnode & Hown & Hroot & Hothers & Hchildren & _).
  exact (ex_intro _ n (ex_intro _ st'
           (conj Hcall (conj Hnew (conj Hnode (conj Hown (conj (Hroot eq_refl)
              (conj Hothers (Hchildren Hclosed))))))))).
Defined.

(** *** Assignments *)

Lemma get_attr_set_attr name s a : get_attr name (set_attr name s a) = Some s.
Proof.
  unfold get_attr. induction a as [|[k v] a IH]; cbn.
  - by rewrite String.eqb_refl.
  - destruct (String.eqb k name) eqn:Hk; cbn; by rewrite Hk.
Qed.

(** A call of the [set] trap that returns, returns [undefined]. *)
Lemma set_returns_undefined h instance propName val st r st' :
  SSVGProxyHandler_set h instance propName val st = (Normal r, st') → r = VUndefined.
Proof.
  unfold SSVGProxyHandler_set. intros Hs.
  apply bind_normal_inv in Hs as (desc & st1 & _ & Hs).
  apply bind_normal_inv in Hs as ([] & st2 & _ & Hs).
  by injection Hs as <- <-.
Qed.

(** What the statement [handle.propName = val] does, from what the trap
    does. *)
Lemma assign_from_trap h strict target propName val st c st' :
  SSVGProxyHandler_set h target propName val st = (c, st') →
  assign h strict (VProxy target) propName val st =
  match c with
  | Normal _ => (if strict then Throw TypeError else Normal (), st')
  | Throw e => (Throw e, st')
  | Unmodelled => (Unmodelled, st')
  end.
Proof.
  intros Hs. unfold assign, proxy_set. rewrite !bind_unfold, Hs.
  destruct c as [r| |]; [|done..].
  rewrite (set_returns_undefined _ _ _ _ _ _ _ Hs). cbn.
  by destruct strict.
Qed.

(** The [set] trap on an element, for a name that is no writable own
    property. *)
Lemma set_attribute_path h st e props nd name v s :
  standard_dom h →
  st !! e = Some (Object props (Some nd)) →
  (∀ d, props !! name = Some d → d_writable d = false) →
  props !! "setAttribute" = None →
  coerces h v s →
  valid_attribute_name h name = true →
  SSVGProxyHandler_set h e name v st =
  (Normal VUndefined,
   <[e := Object props (Some (with_attributes nd (set_attr name s (attributes nd))))]> st).
Proof.
  intros Hdom He Hnw Hown Hv Hname. unfold SSVGProxyHandler_set.
  rewrite (bind_normal _ _ _ _ _ (getOwnPropertyDescriptor_Some _ _ _ name He)).
  cbn [own].
  assert (Hcall :
    (call_method h (VObject e) "setAttribute" [VString name; v] ;;; ret ()) st =
    (Normal (),
     <[e := Object props (Some (with_attributes nd (set_attr name s (attributes nd))))]> st)).
  { erewrite bind_normal; [reflexivity|].
    eapply call_setAttribute; [done| |done..]. split; [done|apply Hdom]. }
  assert (is_writable (props !! name) = false) as ->.
  { destruct (props !! name) as [d|] eqn:Hd; [|done]. by apply Hnw. }
  by rewrite (bind_normal _ _ _ _ _ Hcall).
Qed.

(** The [set] trap for a name that is a writable own property. *)
Lemma set_property_path h st t o d name v :
  st !! t = Some o →
  own o !! name = Some d →
  d_writable d = true →
  SSVGProxyHandler_set h t name v st =
  (Normal VUndefined,
   <[t := Object (<[name := Descriptor v true (d_enumerable d) (d_configurable d)]> (own o))
                 (dom o)]> st).
Proof.
  intros Ht Hd Hw. unfold SSVGProxyHandler_set.
  rewrite (bind_normal _ _ _ _ _ (getOwnPropertyDescriptor_Some _ _ _ name Ht)).
  rewrite Hd. cbn [is_writable]. rewrite Hw. unfold property_assign.
  rewrite bind_unfold, (bind_normal _ _ _ _ _ (lookup_object_Some _ _ _ Ht)).
  by rewrite Hd, Hw.
Qed.

(** The [set] trap on an element, for a name that is no writable own
    property: the call of the host's [setAttribute] on the element, with
    the name and the value as they came. *)
Lemma set_forwards h st e props nd name v :
  standard_dom h →
  st !! e = Some (Object props (Some nd)) →
  (∀ d, props !! name = Some d → d_writable d = false) →
  props !! "setAttribute" = None →
  SSVGProxyHandler_set h e name v st =
  (Element_setAttribute h e [VString name; v] ;;; ret VUndefined) st.
Proof.
  intros Hdom He Hnw Hown. unfold SSVGProxyHandler_set.
  rewrite (bind_normal _ _ _ _ _ (getOwnPropertyDescriptor_Some _ _ _ name He)).
  cbn [own].
  assert (Hcall : call_method h (VObject e) "setAttribute" [VString name; v] st =
                  Element_setAttribute h e [VString name; v] st).
  { unfold call_method.
    rewrite (bind_normal _ _ _ _ _ (Get_Some h _ _ _ "setAttribute" He)).
    unfold property_of. cbn [own]. rewrite Hown. cbn [inherited dom].
    by rewrite (proj1 (Hdom (localName nd))). }
  assert (Hgoal :
    ((call_method h (VObject e) "setAttribute" [VString name; v] ;;; ret ()) ;;;
     ret VUndefined) st =
    (Element_setAttribute h e [VString name; v] ;;; ret VUndefined) st).
  { rewrite !bind_unfold, Hcall.
    by destruct (Element_setAttribute h e [VString name; v] st) as [[?| |] ?]. }
  assert (is_writable (props !! name) = false) as ->; [|exact Hgoal].
  destruct (props !! name) as [d|] eqn:Hd; [|done]. by apply Hnw.
Qed.

(** On an element handle the [set] trap does what is asked of every
    handle.  For a name that is no writable own property of the element,
    it forwards to the host's [setAttribute] on the element, with the name
    and the value.  When the value converts to the string [s] and the host
    accepts the name, the attribute [name] of the element is set to [s] and
    nothing else changes; this is the heap the assignment statement leaves,
    in strict and in sloppy code; the attribute then reads back as [s], and
    the own properties of the element are as before. *)
Theorem element_assignment_sets_attribute (h : Host) (st : heap) (e : loc)
    (props : gmap string descriptor) (nd : node) (name : string) (v : value) :
  standard_dom h →
  st !! e = Some (Object props (Some nd)) →
  (∀ d, props !! name = Some d → d_writable d = false) →
  props !! "setAttribute" = None →
  SSVGProxyHandler_set h e name v st =
    (Element_setAttribute h e [VString name; v] ;;; ret VUndefined) st ∧
  ∀ s, coerces h v s → valid_attribute_name h name = true →
    let st' :=
      <[e := Object props (Some (with_attributes nd (set_attr name s (attributes nd))))]> st in
    SSVGProxyHandler_set h e name v st = (Normal VUndefined, st') ∧
    (∀ strict, (assign h strict (VProxy e) name v st).2 = st') ∧
    (attributes <$> node_at st' e) ≫= get_attr name = Some s ∧
    (own <$> st' !! e) = Some props.
Proof.
  intros Hdom He Hnw Hown. split; [by eapply set_forwards|].
  intros s Hv Hname st'.
  pose proof (set_attribute_path h st e props nd name v s Hdom He Hnw Hown Hv Hname) as Hset.
  pose proof (lookup_lt_Some _ _ _ He) as Hlt.
  split; [exact Hset|]. split; [|split].
  - intros strict. rewrite (assign_from_trap _ strict _ _ _ _ _ _ Hset). by destruct strict.
  - unfold node_at, st'. rewrite list_lookup_insert_eq by done. cbn.
    apply get_attr_set_attr.
  - unfold st'. by rewrite list_lookup_insert_eq.
Qed.

(** [circle.r = 50] and [circle.class = 'foo'] on the circle of
    [circle_heap]. *)
Lemma element_assignment_sets_attribute_witness :
  (let st' := <[2 := created "circle" [("r", "50")] (Some 1) 2]> circle_heap in
   SSVGProxyHandler_set example_host 2 "r" (VNumber 50) circle_heap
     = (Normal VUndefined, st') ∧
   (∀ strict, (assign example_host strict (VProxy 2) "r" (VNumber 50) circle_heap).2 = st') ∧
   (attributes <$> node_at st' 2) ≫= get_attr "r" = Some "50" ∧
   (own <$> st' !! 2) = Some {["root" := Descriptor (VObject 2) false false false]})
  ∧
  (let st' := <[2 := created "circle" [("class", "foo")] (Some 1) 2]> circle_heap in
   SSVGProxyHandler_set example_host 2 "class" (VString "foo") circle_heap
     = (Normal VUndefined, st') ∧
   (∀ strict,
      (assign example_host strict (VProxy 2) "class" (VString "foo") circle_heap).2 = st') ∧
   (attributes <$> node_at st' 2) ≫= get_attr "class" = Some "foo" ∧
   (own <$> st' !! 2) = Some {["root" := Descriptor (VObject 2) false false false]}).
Proof.
  assert (Hnw : ∀ name, name ≠ "root" →
            ∀ d, ({["root" := Descriptor (VObject 2) false false false]}
                    : gmap string descriptor) !! name = Some d → d_writable d = false).
  { intros name Hne d. by rewrite lookup_singleton_ne. }
  split.
  - apply (proj2 (element_assignment_sets_attribute example_host circle_heap 2
             {["root" := Descriptor (VObject 2) false false false]}
             (Node "circle" svgns [] [] (Some 1)) "r" (VNumber 50)
             example_standard_dom eq_refl (Hnw "r" ltac:(discriminate)) eq_refl) "50");
      [by intros st | reflexivity].
  - apply (proj2 (element_assignment_sets_attribute example_host circle_heap 2
             {["root" := Descriptor (VObject 2) false false false]}
             (Node "circle" svgns [] [] (Some 1)) "class" (VString "foo")
             example_standard_dom eq_refl (Hnw "class" ltac:(discriminate)) eq_refl) "foo");
      [by intros st | reflexivity].
Defined.

(** C3.  The code at [session.width = 100].  The handler is shared by the
    session and the elements, and its [set] trap calls
    [instance.setAttribute] where the creator and the constructor go
    through [root]: the target of the session handle is the instance of
    [SSVG], which has no [setAttribute].  So for [width], no own property
    of the instance, with a value that converts to ["100"] and a name the
    host accepts, the trap raises a [TypeError], the statement raises it in
    strict and in sloppy code, and no attribute is set: the heap, with the
    container and its empty attribute list, is as before.  The host's
    [setAttribute] on the container, the node that [root] holds, would
    have set the attribute. *)
Lemma session_assignment_is_not_forwarded :
  let st := session_heap in
  own <$> st !! 0 = Some {["root" := Descriptor (VObject 1) true true true]} ∧
  coerces example_host (VNumber 100) "100" ∧
  valid_attribute_name example_host "width" = true ∧
  node_at st 1 = Some (Node "svg" svgns [] [] None) ∧
  SSVGProxyHandler_set example_host 0 "width" (VNumber 100) st = (Throw TypeError, st) ∧
  (∀ strict,
     assign example_host strict (VProxy 0) "width" (VNumber 100) st = (Throw TypeError, st)) ∧
  (Element_setAttribute example_host 1 [VString "width"; VNumber 100] ;;; ret VUndefined) st
    = (Normal VUndefined, <[1 := container [("width", "100")]]> st).
Proof.
  repeat split; by try intros [].
Qed.

(** C4.  For every target, session or element, and every name that is a
    writable own property of it, the [set] trap stores the value in that
    property, keeping its other attributes, and leaves every node of the
    heap, with its attribute list, as it was. *)
Theorem writable_property_is_assigned (h : Host) (st : heap) (t : loc) (o : object)
    (d : descriptor) (name : string) (v : value) :
  st !! t = Some o →
  own o !! name = Some d →
  d_writable d = true →
  let o' := Object (<[name := Descriptor v true (d_enumerable d) (d_configurable d)]> (own o))
                   (dom o) in
  SSVGProxyHandler_set h t name v st = (Normal VUndefined, <[t := o']> st) ∧
  (∀ strict, (assign h strict (VProxy t) name v st).2 = <[t := o']> st) ∧
  property_of h o' name = v ∧
  (∀ l, node_at (<[t := o']> st) l = node_at st l).
Proof.
  intros Ht Hd Hw o'.
  pose proof (set_property_path h st t o d name v Ht Hd Hw) as Hset.
  split; [exact Hset|]. split; [|split].
  - intros strict. rewrite (assign_from_trap _ strict _ _ _ _ _ _ Hset). by destruct strict.
  - unfold property_of, o'. cbn [own]. by rewrite lookup_insert_eq.
  - intros l. unfold node_at. destruct (decide (l = t)) as [->|Hl].
    + rewrite list_lookup_insert_eq by by eapply lookup_lt_Some. by rewrite Ht.
    + by rewrite list_lookup_insert_ne.
Qed.

(** [session.root = 5] on the session of [session_heap]. *)
Lemma writable_property_is_assigned_witness :
  let o' := Object (<["root" := Descriptor (VNumber 5) true true true]>
                      {["root" := Descriptor (VObject 1) true true true]}) None in
  SSVGProxyHandler_set example_host 0 "root" (VNumber 5) session_heap
    = (Normal VUndefined, <[0 := o']> session_heap) ∧
  (∀ strict, (assign example_host strict (VProxy 0) "root" (VNumber 5) session_heap).2
             = <[0 := o']> session_heap) ∧
  property_of example_host o' "root" = VNumber 5 ∧
  (∀ l, node_at (<[0 := o']> session_heap) l = node_at session_heap l).
Proof.
  exact (writable_property_is_assigned example_host session_heap 0
           (Object {["root" := Descriptor (VObject 1) true true true]} None)
           (Descriptor (VObject 1) true true true) "root" (VNumber 5)
           eq_refl eq_refl eq_refl).
Defined.

(** On an element handle [root] is an own property that is not writable:
    the assignment [circle.root = 5] goes to the attributes. *)
Example element_root_is_not_writable :
  d_writable <$> (circle_heap !! 2 ≫= λ o, own o !! "root") = Some false ∧
  SSVGProxyHandler_set example_host 2 "root" (VNumber 5) circle_heap =
  (Normal VUndefined, <[2 := created "circle" [("root", "5")] (Some 1) 2]> circle_heap).
Proof. by split. Qed.

(** *** Attribute mappings *)

Lemma set_attr_new k s a : k ∉ a.*1 → set_attr k s a = (a ++ [(k, s)])%list.
Proof.
  induction a as [|[k' v'] a IH]; [done|]. cbn. intros Hk.
  apply not_elem_of_cons in Hk as [Hne Hk].
  destruct (String.eqb k' k) eqn:Heq.
  - apply String.eqb_eq in Heq. by subst.
  - by rewrite IH.
Qed.

(** Entries with distinct names, none of them set yet, are added at the end
    in their order. *)
Lemma apply_entries_distinct kvs : ∀ a,
  NoDup (a.*1 ++ kvs.*1)%list → apply_entries a kvs = (a ++ kvs)%list.
Proof.
  unfold apply_entries. induction kvs as [|[k s] kvs IH]; intros a Hnd; cbn.
  - by rewrite app_nil_r.
  - cbn in Hnd. rewrite set_attr_new.
    + rewrite IH.
      * by rewrite <- app_assoc.
      * rewrite fmap_app. cbn. by rewrite <- app_assoc.
    + apply NoDup_app in Hnd as (_ & Hdis & _). intros Hin.
      apply (Hdis k Hin). by left.
Qed.

Lemma lookup_fresh_at (st : heap) n o : n = length st → (st ++ [o])%list !! n = Some o.
Proof. intros ->. by apply list_lookup_middle. Qed.

(** C5.  A creator called with an attribute mapping, given by its entries
    in iteration order (their names distinct, as in every mapping), each
    name accepted by the host and each value converting to a string: the
    new node has exactly these attributes, in that order, each with the
    string of its value. *)
Theorem creator_applies_mapping (h : Host) (st : heap) (isCreate : bool)
    (elemName : string) (instance : loc) (attrs : list (string * value))
    (strs : list string) :
  standard_dom h →
  valid_element_name h elemName = true →
  Forall2 (entry_ok h) attrs strs →
  NoDup attrs.*1 →
  (isCreate = false → ∃ r, attach_point h st instance r) →
  ∃ n st',
    creator h isCreate elemName instance (Some attrs) st = (Normal (VProxy n), st') ∧
    node_at st n = None ∧
    (attributes <$> node_at st' n) = Some (zip attrs.*1 strs).
Proof.
  intros Hdom Hname Hall Hnd Hat.
  assert (Happly : apply_entries [] (zip attrs.*1 strs) = zip attrs.*1 strs).
  { rewrite apply_entries_distinct; [done|]. cbn.
    rewrite fst_zip; [done|]. rewrite length_fmap.
    by rewrite (Forall2_length _ _ _ Hall). }
  exists (length st). destruct isCreate.
  - eexists. split; [by eapply creator_detached|].
    split; [apply node_at_fresh|].
    unfold node_at. rewrite lookup_fresh. by rewrite <- Happly.
  - destruct (Hat eq_refl) as (r & io & rp & rn & Hi & Hroot & Hr & Happ).
    eexists. split; [by eapply creator_attached|].
    split; [apply node_at_fresh|].
    unfold node_at. rewrite lookup_fresh_at by by rewrite length_insert.
    by rewrite <- Happly.
Qed.

(** [session.createCircle({cx: 100, cy: 100, r: 50, fill: 'red'})] *)
Lemma creator_applies_mapping_witness :
  ∃ n st',
    creator example_host true "circle" 0
      (Some [("cx", VNumber 100); ("cy", VNumber 100); ("r", VNumber 50);
             ("fill", VString "red")]) session_heap = (Normal (VProxy n), st') ∧
    node_at session_heap n = None ∧
    (attributes <$> node_at st' n) =
      Some [("cx", "100"); ("cy", "100"); ("r", "50"); ("fill", "red")].
Proof.
  apply (creator_applies_mapping example_host session_heap true "circle" 0
           [("cx", VNumber 100); ("cy", VNumber 100); ("r", VNumber 50);
            ("fill", VString "red")]
           ["100"; "100"; "50"; "red"]).
  - apply example_standard_dom.
  - reflexivity.
  - repeat constructor; by intros st.
  - apply (bool_decide_unpack _). by vm_compute.
  - discriminate.
Defined.

(** *** Nested creation *)

Lemma read_root_inv h st t o r st' :
  st !! t = Some o →
  read h (VProxy t) "root" st = (Normal (VObject r), st') →
  window_hasOwnProperty h "SVGRootElement" = false ∧ property_of h o "root" = VObject r.
Proof.
  intros Ht. unfold read, proxy_get.
  destruct (window_hasOwnProperty h "SVGRootElement") eqn:Hw.
  - rewrite (bind_normal _ _ _ _ _ (get_valid h t "root" false "root" st match_root Hw)).
    rewrite (bind_normal _ _ _ _ _ (getOwnPropertyDescriptor_Some _ _ _ "root" Ht)).
    destruct (own o !! "root") as [d|]; [|done].
    by destruct (frozen d && _).
  - rewrite (bind_normal _ _ _ _ _ (get_invalid h t o "root" false "root" st match_root Hw Ht)).
    rewrite (bind_normal _ _ _ _ _ (getOwnPropertyDescriptor_Some _ _ _ "root" Ht)).
    intros Hread. split; [done|]. revert Hread.
    destruct (own o !! "root") as [d|].
    + destruct (frozen d && _); [done|].
      destruct (property_of h o "root"); by intros [= <-].
    + destruct (property_of h o "root"); by intros [= <-].
Qed.

(** C6.  On every handle, session or element, whose [root] reads as the
    node [r]: the call [handle.K(attrs)] for a bare known kind [K] makes
    the new node the last child of [r], the handle's own node, with [r] as
    its parent; [root] of the new handle reads as the new node, [root] of
    the accessed handle still reads as [r], and every other object of the
    heap is as before.  On a handle made by [SSVGElementProxy], [r] is the
    wrapped element itself. *)
Theorem auto_attach_targets_handle_node (h : Host) (st : heap) (t r : loc) (o : object)
    (rp : gmap string descriptor) (rn : node) (K : string) (attrs : mapping)
    (strs : list string) :
  standard_dom h →
  token K = true → marked K = false →
  window_hasOwnProperty h (className_of K) = true →
  valid_element_name h (Str.toLowerCase K) = true →
  Forall2 (entry_ok h) (entries attrs) strs →
  st !! t = Some o →
  not_frozen o K →
  read h (VProxy t) "root" st = (Normal (VObject r), st) →
  st !! r = Some (Object rp (Some rn)) →
  rp !! "append" = None →
  ∃ n st',
    invoke h (VProxy t) K attrs st = (Normal (VProxy n), st') ∧
    node_at st n = None ∧
    read h (VProxy n) "root" st' = (Normal (VObject n), st') ∧
    parent <$> node_at st' n = Some (Some r) ∧
    (∃ rn', node_at st' r = Some rn' ∧ children rn' = (children rn ++ [n])%list
            ∧ parent rn' = parent rn) ∧
    (∀ l, l ≠ r → l ≠ n → st' !! l = st !! l) ∧
    (∀ elemName a p, o = created elemName a p t → r = t).
Proof.
  intros Hdom HK Hm Hw Hname Hall Ht Hfr Hread Hr Happ.
  destruct (read_root_inv h st t o r st Ht Hread) as [Hnoroot Hroot].
  pose proof (lookup_lt_Some _ _ _ Hr) as Hlt.
  exists (length st). eexists. split; [by eapply invoke_bare|].
  set (ro := Object rp (Some (add_last_child (length st) rn))).
  set (new := created _ _ _ _).
  assert (Hnew : (<[r := ro]> st ++ [new])%list !! length st = Some new).
  { apply lookup_fresh_at. by rewrite length_insert. }
  split; [apply node_at_fresh|]. split; [|split; [|split; [|split]]].
  - erewrite read_root; [|done|exact Hnew|apply created_no_frozen_function].
    unfold new. by rewrite created_root.
  - unfold node_at. by rewrite Hnew.
  - exists (add_last_child (length st) rn). split; [|done].
    unfold node_at. rewrite lookup_app_l by by rewrite length_insert.
    by rewrite list_lookup_insert_eq.
  - intros l Hlr Hln. destruct (decide (l < length st)).
    + rewrite lookup_app_l by by rewrite length_insert.
      by rewrite list_lookup_insert_ne.
    + rewrite !lookup_ge_None_2; [done|lia|].
      rewrite length_app, length_insert. cbn. lia.
  - intros elemName a p ->. rewrite created_root in Hroot. by injection Hroot.
Qed.

(** [let g = session.g(); let c = g.circle({cx: 1})]: the circle is node
    3, its parent is the group, node 2, which [g.root] is, and the parent
    of the group is the container, node 1, which [session.root] is. *)
Lemma auto_attach_targets_handle_node_witness :
  invoke example_host (VProxy 0) "g" None session_heap = (Normal (VProxy 2), group_heap) ∧
  read example_host (VProxy 0) "root" group_heap = (Normal (VObject 1), group_heap) ∧
  read example_host (VProxy 2) "root" group_heap = (Normal (VObject 2), group_heap) ∧
  parent <$> node_at group_heap 2 = Some (Some 1) ∧
  ∃ n st',
    invoke example_host (VProxy 2) "circle" (Some [("cx", VNumber 1)]) group_heap
      = (Normal (VProxy n), st') ∧
    node_at group_heap n = None ∧
    read example_host (VProxy n) "root" st' = (Normal (VObject n), st') ∧
    parent <$> node_at st' n = Some (Some 2) ∧
    (∃ rn', node_at st' 2 = Some rn' ∧ children rn' = [n] ∧ parent rn' = Some 1) ∧
    (∀ l, l ≠ 2 → l ≠ n → st' !! l = group_heap !! l).
Proof.
  do 4 (split; [reflexivity|]).
  assert (Hall : Forall2 (entry_ok example_host) [("cx", VNumber 1)] ["1"])
    by (repeat constructor; by intros st).
  assert (Hfr : not_frozen (created "g" [] (Some 1) 2) "circle").
  { intros d. unfold created. cbn [own]. by rewrite lookup_singleton_ne. }
  assert (Happ : ({["root" := Descriptor (VObject 2) false false false]}
                    : gmap string descriptor) !! "append" = None)
    by by rewrite lookup_singleton_ne.
  destruct (auto_attach_targets_handle_node example_host group_heap 2 2
              (created "g" [] (Some 1) 2)
              {["root" := Descriptor (VObject 2) false false false]}
              (Node "g" svgns [] [] (Some 1)) "circle" (Some [("cx", VNumber 1)]) ["1"]
              example_standard_dom eq_refl eq_refl eq_refl eq_refl Hall eq_refl Hfr
              eq_refl eq_refl Happ)
    as (n & st' & Hcall & Hnew & Hroot & Hparent & Hchildren & Hothers & _).
  exact (ex_intro _ n (ex_intro _ st'
           (conj Hcall (conj Hnew (conj Hroot (conj Hparent (conj Hchildren Hothers))))))).
Defined.

(** *** Reads *)

(** C7.  For a property name whose candidate interface is not in the
    host, the [get] trap completes without an exception and without
    touching the heap: it yields what the property lookup on the target
    yields, a function being bound to the target.  So does the read
    through the handle.  For a property the target neither has nor
    inherits, the read yields [undefined]. *)
Theorem unknown_kind_read_falls_through (h : Host) (st : heap) (t : loc) (o : object)
    (propName : string) (isCreate : bool) (elemName : string) :
  propName_match propName = Some (isCreate, elemName) →
  window_hasOwnProperty h (className_of elemName) = false →
  st !! t = Some o →
  no_frozen_function o propName →
  SSVGProxyHandler_get h t propName st =
    (Normal (fallback t (property_of h o propName)), st) ∧
  read h (VProxy t) propName st =
    (Normal (fallback t (property_of h o propName)), st) ∧
  (∀ f, property_of h o propName = VFunction f →
        read h (VProxy t) propName st = (Normal (VFunction (Bound f t)), st)) ∧
  ((∀ f, property_of h o propName ≠ VFunction f) →
   read h (VProxy t) propName st = (Normal (property_of h o propName), st)) ∧
  (own o !! propName = None → inherited h o propName = VUndefined →
   read h (VProxy t) propName st = (Normal VUndefined, st)).
Proof.
  intros Hm Hw Ht Hfr.
  pose proof (proxy_get_invalid h t o propName isCreate elemName st Hm Hw Ht Hfr) as Hread.
  split; [by eapply get_invalid|]. split; [exact Hread|]. split; [|split].
  - intros f Hf. cbn [read]. by rewrite Hread, Hf.
  - intros Hnf. cbn [read]. rewrite Hread.
    destruct (property_of h o propName) eqn:Hp; try done. by destruct (Hnf f).
  - intros Hown Hinh. cbn [read]. rewrite Hread.
    unfold property_of. by rewrite Hown, Hinh.
Qed.

(** [session.bogus] is [undefined]; [session.toString] is the inherited
    method, bound to the session object. *)
Lemma unknown_kind_read_falls_through_witness :
  read example_host (VProxy 0) "bogus" session_heap = (Normal VUndefined, session_heap) ∧
  read example_host (VProxy 0) "toString" session_heap
    = (Normal (VFunction (Bound (Native "toString") 0)), session_heap).
Proof.
  split.
  - refine (proj2 (proj2 (proj2 (proj2
      (unknown_kind_read_falls_through example_host session_heap 0
         (Object {["root" := Descriptor (VObject 1) true true true]} None)
         "bogus" false "bogus" eq_refl eq_refl eq_refl _)))) eq_refl eq_refl).
    intros d f. vm_compute. discriminate.
  - refine (proj1 (proj2 (proj2
      (unknown_kind_read_falls_through example_host session_heap 0
         (Object {["root" := Descriptor (VObject 1) true true true]} None)
         "toString" false "toString" eq_refl eq_refl eq_refl _))) _ eq_refl).
    intros d f. vm_compute. discriminate.
Defined.

(** C9.  For a property name whose candidate interface is in the host,
    the [get] trap returns the creator function whatever the target's own
    or inherited property of that name is: the lookup on the target is not
    made.  The read through the handle returns that creator whenever the
    language lets a proxy answer at all, that is, unless the target's own
    property of that name is neither configurable nor writable. *)
Theorem kind_name_shadows_property (h : Host) (st : heap) (t : loc)
    (propName : string) (isCreate : bool) (elemName : string) :
  propName_match propName = Some (isCreate, elemName) →
  window_hasOwnProperty h (className_of elemName) = true →
  SSVGProxyHandler_get h t propName st =
    (Normal (VFunction (Creator isCreate (Str.toLowerCase elemName) t)), st) ∧
  (∀ o, st !! t = Some o → not_frozen o propName →
        read h (VProxy t) propName st =
        (Normal (VFunction (Creator isCreate (Str.toLowerCase elemName) t)), st)).
Proof.
  intros Hm Hw. split; [by apply get_valid|].
  intros o Ht Hfr. by eapply proxy_get_valid.
Qed.

(** Read through a circle handle, [style] is the creator of a [style]
    element and [getAttribute] is the method of the element. *)
Lemma kind_name_shadows_property_witness :
  read example_host (VProxy 2) "style" circle_heap
    = (Normal (VFunction (Creator false "style" 2)), circle_heap) ∧
  read example_host (VProxy 2) "getAttribute" circle_heap
    = (Normal (VFunction (Bound (Native "getAttribute") 2)), circle_heap).
Proof.
  split; [|reflexivity].
  refine (proj2 (kind_name_shadows_property example_host circle_heap 2 "style" false "style"
                   eq_refl eq_refl) (created "circle" [] (Some 1) 2) eq_refl _).
  intros d. vm_compute. discriminate.
Defined.

(** *** The session *)

Lemma insert_second (st : heap) a b b' :
  <[S (length st) := b']> (st ++ [a; b])%list = (st ++ [a; b'])%list.
Proof.
  rewrite insert_app_r_alt by lia.
  by replace (S (length st) - length st) with 1 by lia.
Qed.

Lemma insert_first (st : heap) a a' l :
  <[length st := a']> (st ++ a :: l)%list = (st ++ a' :: l)%list.
Proof. rewrite insert_app_r_alt by lia. by rewrite Nat.sub_diag. Qed.

Lemma lookup_second (st : heap) a b : (st ++ [a; b])%list !! S (length st) = Some b.
Proof.
  rewrite lookup_app_r by lia.
  by replace (S (length st) - length st) with 1 by lia.
Qed.

Lemma SSVG_run h attrs strs st :
  standard_dom h →
  valid_element_name h "svg" = true →
  Forall2 (entry_ok h) (entries attrs) strs →
  SSVG h attrs st =
  (Normal (VProxy (length st)),
   (st ++ [session_object (S (length st));
           container (apply_entries [] (zip (entries attrs).*1 strs))])%list).
Proof.
  intros Hdom Hname Hall. unfold SSVG, createElementNS. rewrite Hname.
  rewrite (bind_normal (alloc _) _ st (length st) (st ++ [Object ∅ None])%list eq_refl).
  rewrite (bind_normal (alloc _) _ _ _ _ eq_refl).
  rewrite (bind_normal (store_object _ _) _ _ () _ eq_refl).
  rewrite <- app_assoc, length_app. cbn [app length].
  rewrite Nat.add_1_r, insert_first.
  fold (session_object (S (length st))).
  erewrite bind_normal; last first.
  { eapply (set_attributes_run h _ (S (length st)) ∅); [done|apply lookup_empty|done|..].
    - apply lookup_second.
    - intros st' Hlen Hst'.
      rewrite (Get_Some h st' (length st) (session_object (S (length st))) "root").
      + unfold property_of, session_object. cbn [own]. by rewrite lookup_singleton_eq.
      + rewrite Hst' by lia. by apply list_lookup_middle. }
  unfold SSVGProxy, ret. by rewrite insert_second.
Qed.

(** C8.  [new SSVG(attrs)] returns a handle and makes one container, a
    node [svg] that was not in the heap; every read of [root] on the handle
    returns a reference to that node and leaves the heap as it is, so that
    any number of reads in a row return the same reference and no node is
    made by them; and so does a read in any later heap in which the session
    object is as the constructor left it. *)
Theorem session_root_is_stable (h : Host) (st : heap) (attrs : mapping)
    (strs : list string) :
  standard_dom h →
  window_hasOwnProperty h "SVGRootElement" = false →
  valid_element_name h "svg" = true →
  Forall2 (entry_ok h) (entries attrs) strs →
  ∃ s r st',
    SSVG h attrs st = (Normal (VProxy s), st') ∧
    node_at st r = None ∧
    node_at st' r =
      Some (Node "svg" svgns (apply_entries [] (zip (entries attrs).*1 strs)) [] None) ∧
    (∀ n, reads h (VProxy s) "root" n st' = (Normal (replicate n (VObject r)), st')) ∧
    (∀ st'', st'' !! s = st' !! s →
             read h (VProxy s) "root" st'' = (Normal (VObject r), st'')).
Proof.
  intros Hdom Hnoroot Hname Hall.
  exists (length st), (S (length st)). eexists.
  split; [by apply SSVG_run|].
  set (st' := (st ++ _)%list).
  assert (Hs : st' !! length st = Some (session_object (S (length st))))
    by by apply list_lookup_middle.
  assert (Hread : ∀ st'', st'' !! length st = st' !! length st →
            read h (VProxy (length st)) "root" st'' = (Normal (VObject (S (length st))), st'')).
  { intros st'' Hst''. rewrite Hs in Hst''. erewrite read_root; [|done|exact Hst''|].
    - unfold property_of, session_object. cbn [own]. by rewrite lookup_singleton_eq.
    - intros d f. unfold session_object. cbn [own]. rewrite lookup_singleton_eq.
      by intros [= <-]. }
  split; [|split; [|split]].
  - unfold node_at. rewrite lookup_ge_None_2; [done|lia].
  - unfold node_at, st'. by rewrite lookup_second.
  - induction n as [|n IH]; [done|]. cbn [reads replicate].
    by rewrite (bind_normal _ _ _ _ _ (Hread st' eq_refl)), (bind_normal _ _ _ _ _ IH).
  - exact Hread.
Qed.

(** [new SSVG({width: 100})] in an empty heap, then three reads. *)
Lemma session_root_is_stable_witness :
  ∃ s r st',
    SSVG example_host (Some [("width", VNumber 100)]) [] = (Normal (VProxy s), st') ∧
    node_at [] r = None ∧
    node_at st' r = Some (Node "svg" svgns [("width", "100")] [] None) ∧
    (∀ n, reads example_host (VProxy s) "root" n st'
          = (Normal (replicate n (VObject r)), st')) ∧
    (∀ st'', st'' !! s = st' !! s →
             read example_host (VProxy s) "root" st'' = (Normal (VObject r), st'')).
Proof.
  apply (session_root_is_stable example_host [] (Some [("width", VNumber 100)]) ["100"]).
  - apply example_standard_dom.
  - reflexivity.
  - reflexivity.
  - repeat constructor; by intros st.
Defined.

(** *** The result of the [set] trap *)

(** C10.  [[Set]] on a handle never reports success and an assignment
    statement in strict code never completes normally.  Whenever the [set]
    trap returns, having assigned the property or set the attribute, it
    returns [undefined]; [[Set]] then reports failure; the statement raises
    a [TypeError] in strict code and completes in sloppy code; in both, the
    heap is the one the trap has left. *)
Theorem set_trap_reports_no_success (h : Host) (t : loc) (name : string) (v : value)
    (st : heap) :
  (∀ st', proxy_set h t name v st ≠ (Normal true, st')) ∧
  (∀ st', assign h true (VProxy t) name v st ≠ (Normal (), st')) ∧
  (∀ r st',
     SSVGProxyHandler_set h t name v st = (Normal r, st') →
     r = VUndefined ∧
     proxy_set h t name v st = (Normal false, st') ∧
     assign h true (VProxy t) name v st = (Throw TypeError, st') ∧
     assign h false (VProxy t) name v st = (Normal (), st')).
Proof.
  assert (Hset : ∀ r st', SSVGProxyHandler_set h t name v st = (Normal r, st') →
                          proxy_set h t name v st = (Normal false, st')).
  { intros r st' Hs. unfold proxy_set. rewrite (bind_normal _ _ _ _ _ Hs).
    by rewrite (set_returns_undefined _ _ _ _ _ _ _ Hs). }
  split; [|split].
  - intros st' Hp. unfold proxy_set in Hp.
    apply bind_normal_inv in Hp as (r & st1 & Hs & Hp).
    rewrite (set_returns_undefined _ _ _ _ _ _ _ Hs) in Hp. by cbn in Hp.
  - intros st'.
    destruct (SSVGProxyHandler_set h t name v st) as [c st1] eqn:Hs.
    rewrite (assign_from_trap _ true _ _ _ _ _ _ Hs). by destruct c.
  - intros r st' Hs. split; [by eapply set_returns_undefined|].
    split; [by eapply Hset|].
    by rewrite !(assign_from_trap _ _ _ _ _ _ _ _ Hs).
Qed.

(** [circle.r = 50]: the attribute is set, and the statement raises a
    [TypeError] in strict code. *)
Lemma set_trap_reports_no_success_witness :
  let st' := <[2 := created "circle" [("r", "50")] (Some 1) 2]> circle_heap in
  st' ≠ circle_heap ∧
  SSVGProxyHandler_set example_host 2 "r" (VNumber 50) circle_heap = (Normal VUndefined, st') ∧
  proxy_set example_host 2 "r" (VNumber 50) circle_heap = (Normal false, st') ∧
  assign example_host true (VProxy 2) "r" (VNumber 50) circle_heap = (Throw TypeError, st') ∧
  assign example_host false (VProxy 2) "r" (VNumber 50) circle_heap = (Normal (), st').
Proof.
  split; [by vm_compute|]. split; [reflexivity|].
  exact (proj2 (proj2 (proj2
    (set_trap_reports_no_success example_host 2 "r" (VNumber 50) circle_heap))
    VUndefined _ eq_refl)).
Defined.

(** * Further properties of the handler *)

(** ** The name analysis, continued *)

Lemma is_word_upper c : Str.is_word_char (Str.upper_char c) = Str.is_word_char c.
Proof. destruct c as [[] [] [] [] [] [] [] []]; vm_compute; reflexivity. Qed.

Lemma is_word_lower c : Str.is_word_char (Str.lower_char c) = Str.is_word_char c.
Proof. destruct c as [[] [] [] [] [] [] [] []]; vm_compute; reflexivity. Qed.

Lemma lower_upper c : Str.lower_char (Str.upper_char c) = Str.lower_char c.
Proof. destruct c as [[] [] [] [] [] [] [] []]; vm_compute; reflexivity. Qed.

Lemma upper_upper c : Str.upper_char (Str.upper_char c) = Str.upper_char c.
Proof. destruct c as [[] [] [] [] [] [] [] []]; vm_compute; reflexivity. Qed.

Lemma lower_lower c : Str.lower_char (Str.lower_char c) = Str.lower_char c.
Proof. destruct c as [[] [] [] [] [] [] [] []]; vm_compute; reflexivity. Qed.

Lemma upper_not_c c : Str.upper_char c ≠ c → Ascii.eqb "c" (Str.upper_char c) = false.
Proof. destruct c as [[] [] [] [] [] [] [] []]; vm_compute; congruence. Qed.

Lemma strip_create_word s rest :
  Str.strip_prefix "create" s = Some rest → Str.nonempty (Str.take_word s) = true.
Proof.
  destruct s as [|a s]; [done|]. cbn [Str.strip_prefix].
  destruct (Ascii.eqb "c" a) eqn:Ha; [|done].
  apply Ascii.eqb_eq in Ha as <-. done.
Qed.

Lemma match_here_None s :
  match_here s = None ↔ Str.nonempty (Str.take_word s) = false.
Proof.
  unfold match_here. cbv zeta. split.
  - destruct (Str.strip_prefix "create" s) as [rest|];
      [destruct (Str.nonempty (Str.take_word rest)); [done|]|];
      by destruct (Str.nonempty (Str.take_word s)).
  - intros Hne. destruct (Str.strip_prefix "create" s) as [rest|] eqn:Hs.
    + by rewrite (strip_create_word _ _ Hs) in Hne.
    + by rewrite Hne.
Qed.

Lemma take_word_first c s :
  Str.nonempty (Str.take_word (String c s)) = Str.is_word_char c.
Proof. cbn [Str.take_word]. by destruct (Str.is_word_char c). Qed.

Lemma propName_match_None s :
  propName_match s = None ↔ has_char Str.is_word_char s = false.
Proof.
  induction s as [|c s IH]; [done|].
  cbn [propName_match has_char].
  destruct (match_here (String c s)) as [r|] eqn:Hm.
  - assert (Str.is_word_char c = true) as ->; [|done].
    rewrite <- take_word_first with (s := s).
    destruct (Str.nonempty _) eqn:Hne; [done|].
    apply match_here_None in Hne. congruence.
  - apply match_here_None in Hm. rewrite take_word_first in Hm.
    by rewrite Hm.
Qed.

(** X1.  The [get] trap raises a [TypeError] exactly for the property
    names without any word character (the expression does not match and
    the destructuring fails); the heap is as before.  For every other name
    and every target of the heap it returns a value. *)
Theorem get_raises_without_word_char (h : Host) (t : loc) (propName : string)
    (st : heap) :
  (has_char Str.is_word_char propName = false →
   SSVGProxyHandler_get h t propName st = (Throw TypeError, st) ∧
   read h (VProxy t) propName st = (Throw TypeError, st)) ∧
  (has_char Str.is_word_char propName = true →
   ∀ o, st !! t = Some o →
        ∃ v, SSVGProxyHandler_get h t propName st = (Normal v, st)).
Proof.
  split.
  - intros Hw. apply propName_match_None in Hw.
    pose proof (get_no_match h t propName st Hw) as Hget.
    split; [exact Hget|]. cbn [read]. unfold proxy_get.
    by rewrite (bind_throw _ _ _ _ _ Hget).
  - intros Hw o Ht.
    destruct (propName_match propName) as [[isCreate elemName]|] eqn:Hm.
    + destruct (window_hasOwnProperty h (className_of elemName)) eqn:Hv.
      * eexists. by eapply get_valid.
      * eexists. by eapply get_invalid.
    + apply propName_match_None in Hm. congruence.
Qed.

(** [session["--"]] raises; [session["-x"]] does not. *)
Lemma get_raises_without_word_char_witness :
  read example_host (VProxy 0) "--" session_heap = (Throw TypeError, session_heap) ∧
  ∃ v, SSVGProxyHandler_get example_host 0 "-x" session_heap = (Normal v, session_heap).
Proof.
  split.
  - exact (proj2 (proj1 (get_raises_without_word_char example_host 0 "--" session_heap)
                    eq_refl)).
  - exact (proj2 (get_raises_without_word_char example_host 0 "-x" session_heap)
             eq_refl _ eq_refl).
Defined.

Lemma take_word_cut r c rest :
  Str.is_word_char c = false →
  Str.take_word (r ++ String c rest) = Str.take_word r.
Proof.
  intros Hc. induction r as [|a r IH].
  - change ("" ++ String c rest) with (String c rest). cbn [Str.take_word].
    by rewrite Hc.
  - change (String a r ++ String c rest) with (String a (r ++ String c rest)).
    cbn [Str.take_word]. destruct (Str.is_word_char a); [by rewrite IH|done].
Qed.

Lemma strip_prefix_cut p c rest :
  Str.all_word p = true → Str.is_word_char c = false →
  ∀ K, Str.strip_prefix p (K ++ String c rest)
       = (λ r, r ++ String c rest) <$> Str.strip_prefix p K.
Proof.
  intros Hp Hc. induction p as [|a p IH]; intros K; [done|].
  unfold Str.all_word in Hp. apply String.eqb_eq in Hp. cbn [Str.take_word] in Hp.
  destruct (Str.is_word_char a) eqn:Ha; [|done].
  injection Hp as Hp.
  destruct K as [|b K].
  - change ("" ++ String c rest) with (String c rest). cbn [Str.strip_prefix].
    destruct (Ascii.eqb a c) eqn:Hac; [|done].
    apply Ascii.eqb_eq in Hac. congruence.
  - change (String b K ++ String c rest) with (String b (K ++ String c rest)).
    cbn [Str.strip_prefix]. destruct (Ascii.eqb a b); [|done]. apply IH.
    unfold Str.all_word. by rewrite Hp, String.eqb_refl.
Qed.

Lemma match_here_cut K c rest :
  Str.is_word_char c = false → match_here (K ++ String c rest) = match_here K.
Proof.
  intros Hc. unfold match_here. cbv zeta.
  rewrite (strip_prefix_cut "create" c rest eq_refl Hc K), (take_word_cut K c rest Hc).
  destruct (Str.strip_prefix "create" K) as [r|]; [|done]. cbn.
  by rewrite (take_word_cut r c rest Hc).
Qed.

Lemma propName_match_cut K c rest r :
  Str.is_word_char c = false →
  propName_match K = Some r → propName_match (K ++ String c rest) = Some r.
Proof.
  intros Hc. induction K as [|a K IH]; [done|].
  change (String a K ++ String c rest) with (String a (K ++ String c rest)).
  cbn [propName_match].
  change (String a (K ++ String c rest)) with (String a K ++ String c rest).
  rewrite (match_here_cut (String a K) c rest Hc).
  destruct (match_here (String a K)); [done|]. apply IH.
Qed.

Lemma propName_match_skip pre s :
  has_char Str.is_word_char pre = false → propName_match (pre ++ s) = propName_match s.
Proof.
  induction pre as [|a pre IH]; [done|]. cbn [has_char]. intros Hpre.
  apply orb_false_elim in Hpre as [Ha Hpre].
  change (String a pre ++ s) with (String a (pre ++ s)).
  cbn [propName_match].
  assert (match_here (String a (pre ++ s)) = None) as ->.
  { apply match_here_None. by rewrite take_word_first. }
  by apply IH.
Qed.

(** X2.  The expression is not anchored: the kind is read from the first
    word of the property name.  Characters that are no word characters in
    front of it, and everything from the first such character after it, do
    not count: for a known kind the trap returns the very creator it
    returns for the word alone. *)
Theorem kind_is_read_from_first_word (h : Host) (t : loc) (st : heap)
    (pre K rest : string) (c : ascii) (isCreate : bool) (elemName : string) :
  has_char Str.is_word_char pre = false →
  Str.is_word_char c = false →
  propName_match K = Some (isCreate, elemName) →
  propName_match (pre ++ K ++ String c rest) = Some (isCreate, elemName) ∧
  (window_hasOwnProperty h (className_of elemName) = true →
   SSVGProxyHandler_get h t (pre ++ K ++ String c rest) st =
   SSVGProxyHandler_get h t K st).
Proof.
  intros Hpre Hc HK.
  assert (Hm : propName_match (pre ++ K ++ String c rest) = Some (isCreate, elemName)).
  { rewrite propName_match_skip by done. by apply propName_match_cut. }
  split; [exact Hm|]. intros Hw.
  by rewrite (get_valid h t _ _ _ st Hm Hw), (get_valid h t _ _ _ st HK Hw).
Qed.

(** [session["a-b"]] and [session[".circle x"]] are the creators of [a] and
    of [circle]. *)
Lemma kind_is_read_from_first_word_witness :
  SSVGProxyHandler_get example_host 0 "a-b" session_heap
    = (Normal (VFunction (Creator false "a" 0)), session_heap) ∧
  SSVGProxyHandler_get example_host 0 ".circle x" session_heap
    = (Normal (VFunction (Creator false "circle" 0)), session_heap).
Proof.
  split.
  - exact (proj2 (kind_is_read_from_first_word example_host 0 session_heap
                    "" "a" "b" "-" false "a" eq_refl eq_refl eq_refl) eq_refl).
  - exact (proj2 (kind_is_read_from_first_word example_host 0 session_heap
                    "." "circle" "x" " " false "circle" eq_refl eq_refl eq_refl) eq_refl).
Defined.

Lemma upperElemName_cons c rest :
  upperElemName_of (String c rest) = String (Str.upper_char c) rest.
Proof. reflexivity. Qed.

Lemma token_cons c rest :
  token (String c rest) = true ↔ Str.is_word_char c = true ∧ Str.take_word rest = rest.
Proof.
  unfold token, Str.all_word. cbn [Str.nonempty Str.take_word andb]. split.
  - intros Hw. apply String.eqb_eq in Hw.
    destruct (Str.is_word_char c); [|done]. by injection Hw.
  - intros [-> ->]. apply String.eqb_refl.
Qed.

Lemma token_upper K : token K = true → token (upperElemName_of K) = true.
Proof.
  destruct K as [|c rest]; [done|]. rewrite upperElemName_cons, !token_cons.
  by rewrite is_word_upper.
Qed.

Lemma marked_upper K : marked K = false → marked (upperElemName_of K) = false.
Proof.
  destruct K as [|c rest]; [done|]. rewrite upperElemName_cons.
  destruct (Ascii.ascii_dec (Str.upper_char c) c) as [->|Hne]; [done|].
  intros _. unfold marked. cbn [Str.strip_prefix]. by rewrite (upper_not_c c Hne).
Qed.

Lemma className_upper K : className_of (upperElemName_of K) = className_of K.
Proof.
  destruct K as [|c rest]; [done|]. unfold className_of.
  by rewrite !upperElemName_cons, upper_upper.
Qed.

Lemma toLowerCase_upper K : Str.toLowerCase (upperElemName_of K) = Str.toLowerCase K.
Proof.
  destruct K as [|c rest]; [done|]. rewrite upperElemName_cons.
  cbn [Str.toLowerCase]. by rewrite lower_upper.
Qed.

(** X3.  The kind test looks at the word with its first letter in upper
    case, and the node is named by the word in lower case: for a known kind
    [K], the property names [K], [K] capitalised, [createK] and [create]
    followed by [K] capitalised all give a creator of the same element,
    without the marker for the first two and with it for the last two. *)
Theorem kind_test_ignores_case_of_first_letter (h : Host) (t : loc) (st : heap)
    (K : string) :
  token K = true → marked K = false →
  window_hasOwnProperty h (className_of K) = true →
  let bare := (Normal (VFunction (Creator false (Str.toLowerCase K) t)), st) in
  let detached := (Normal (VFunction (Creator true (Str.toLowerCase K) t)), st) in
  SSVGProxyHandler_get h t K st = bare ∧
  SSVGProxyHandler_get h t (upperElemName_of K) st = bare ∧
  SSVGProxyHandler_get h t ("create" ++ K) st = detached ∧
  SSVGProxyHandler_get h t ("create" ++ upperElemName_of K) st = detached.
Proof.
  intros HK Hm Hw bare detached.
  pose proof (token_upper K HK) as HK'.
  assert (Hw' : window_hasOwnProperty h (className_of (upperElemName_of K)) = true)
    by by rewrite className_upper.
  split; [|split; [|split]].
  - by apply get_valid; [apply propName_match_bare|].
  - unfold bare. rewrite <- toLowerCase_upper.
    by apply get_valid; [apply propName_match_bare; [|apply marked_upper]|].
  - by apply get_valid; [apply propName_match_create|].
  - unfold detached. rewrite <- toLowerCase_upper.
    by apply get_valid; [apply propName_match_create|].
Qed.

(** [circle], [Circle], [createcircle] and [createCircle]. *)
Lemma kind_test_ignores_case_of_first_letter_witness :
  SSVGProxyHandler_get example_host 0 "circle" session_heap
    = (Normal (VFunction (Creator false "circle" 0)), session_heap) ∧
  SSVGProxyHandler_get example_host 0 "Circle" session_heap
    = (Normal (VFunction (Creator false "circle" 0)), session_heap) ∧
  SSVGProxyHandler_get example_host 0 "createcircle" session_heap
    = (Normal (VFunction (Creator true "circle" 0)), session_heap) ∧
  SSVGProxyHandler_get example_host 0 "createCircle" session_heap
    = (Normal (VFunction (Creator true "circle" 0)), session_heap).
Proof.
  exact (kind_test_ignores_case_of_first_letter example_host 0 session_heap "circle"
           eq_refl eq_refl eq_refl).
Defined.

Lemma take_word_lower w : Str.take_word (Str.toLowerCase w) = Str.toLowerCase (Str.take_word w).
Proof.
  induction w as [|c w IH]; [done|]. cbn [Str.toLowerCase Str.take_word].
  rewrite is_word_lower. destruct (Str.is_word_char c); [|done].
  cbn [Str.toLowerCase]. by rewrite IH.
Qed.

Lemma token_lower w : token w = true → token (Str.toLowerCase w) = true.
Proof.
  intros Hw. destruct (token_take_word w Hw) as [Ht Hne].
  unfold token, Str.all_word. rewrite take_word_lower, Ht, String.eqb_refl.
  by destruct w.
Qed.

Lemma toLowerCase_idem w : Str.toLowerCase (Str.toLowerCase w) = Str.toLowerCase w.
Proof.
  induction w as [|c w IH]; [done|]. cbn [Str.toLowerCase]. by rewrite lower_lower, IH.
Qed.

(** X4.  A creator read from a handle always comes from a name whose
    first word [w] passes the kind test; it is closed over the target of
    that very handle, and the element it will make is named by [w] in lower
    case: a word without upper-case letters, also where the interface name
    has some inside. *)
Theorem creator_is_bound_to_handle_and_lower_case (h : Host) (t : loc)
    (propName : string) (st st' : heap) (isCreate : bool) (elemName : string)
    (instance : loc) :
  read h (VProxy t) propName st = (Normal (VFunction (Creator isCreate elemName instance)), st') →
  instance = t ∧ st' = st ∧
  token elemName = true ∧ Str.toLowerCase elemName = elemName ∧
  ∃ w, propName_match propName = Some (isCreate, w) ∧
       window_hasOwnProperty h (className_of w) = true ∧
       elemName = Str.toLowerCase w.
Proof.
  cbn [read]. unfold proxy_get. intros Hread.
  apply bind_normal_inv in Hread as (v & st1 & Hget & Hread).
  apply bind_normal_inv in Hread as (desc & st2 & Hdesc & Hread).
  assert (Hv : v = VFunction (Creator isCreate elemName instance) ∧ st2 = st').
  { destruct desc as [d|]; [destruct (frozen d && _); [done|]|];
      by injection Hread as -> ->. }
  destruct Hv as [-> <-].
  assert (st2 = st1) as ->.
  { unfold getOwnPropertyDescriptor in Hdesc.
    apply bind_normal_inv in Hdesc as (o & st3 & Ho & Hdesc).
    injection Hdesc as _ <-. unfold lookup_object in Ho.
    destruct (st1 !! t); by injection Ho. }
  unfold SSVGProxyHandler_get in Hget.
  destruct (propName_match propName) as [[b w]|] eqn:Hm; [|done].
  destruct (window_hasOwnProperty h (className_of w)) eqn:Hw; cbn [negb] in Hget.
  - injection Hget as <- <- <- <-.
    pose proof (propName_match_token _ _ _ Hm) as Htok.
    split; [done|]. split; [done|]. split; [by apply token_lower|].
    split; [apply toLowerCase_idem|]. by exists w.
  - apply bind_normal_inv in Hget as (prop & st3 & _ & Hget).
    by destruct prop.
Qed.

(** [session.linearGradient] is a creator of [lineargradient]. *)
Lemma creator_is_bound_to_handle_and_lower_case_witness :
  read example_host (VProxy 0) "linearGradient" session_heap
    = (Normal (VFunction (Creator false "lineargradient" 0)), session_heap) ∧
  token "lineargradient" = true ∧
  ∃ w, propName_match "linearGradient" = Some (false, w) ∧
       window_hasOwnProperty example_host (className_of w) = true ∧
       "lineargradient" = Str.toLowerCase w.
Proof.
  split; [reflexivity|].
  destruct (creator_is_bound_to_handle_and_lower_case example_host 0
              "linearGradient" session_heap session_heap false "lineargradient" 0 eq_refl)
    as (_ & _ & Htoken & _ & Hword).
  exact (conj Htoken Hword).
Defined.

(** ** What the traps leave alone *)

Section Keeps.

Context (h : Host) (R : heap → heap → Prop).
Context (R_refl : ∀ st, R st st) (R_trans : ∀ a b c, R a b → R b c → R a c).

Lemma keeps_bind {A B} (c : M A) (k : A → M B) :
  keeps R c → (∀ a, keeps R (k a)) → keeps R (bind c k).
Proof.
  intros Hc Hk st. rewrite bind_unfold. specialize (Hc st).
  destruct (c st) as [[a| |] st1]; cbn [snd] in *; [|done..].
  eapply R_trans; [exact Hc|apply Hk].
Qed.

Lemma keeps_ret {A} (a : A) : keeps R (ret a).
Proof. intros st. apply R_refl. Qed.

Lemma keeps_throw {A} e : keeps R (@throw A e).
Proof. intros st. apply R_refl. Qed.

Lemma keeps_unmodelled {A} : keeps R (@unmodelled A).
Proof. intros st. apply R_refl. Qed.

Lemma keeps_lookup_object l : keeps R (lookup_object l).
Proof. intros st. unfold lookup_object. destruct (st !! l); apply R_refl. Qed.

Lemma keeps_Get l name : keeps R (Get h l name).
Proof. apply keeps_bind; [apply keeps_lookup_object|intros o; apply keeps_ret]. Qed.

Lemma keeps_getOwnPropertyDescriptor l name : keeps R (getOwnPropertyDescriptor l name).
Proof. apply keeps_bind; [apply keeps_lookup_object|intros o; apply keeps_ret]. Qed.

Lemma keeps_ToString v : keeps R (ToString h v).
Proof.
  intros st. destruct v as [| |[]|z| | | |]; try apply R_refl;
    cbn; [destruct (safe_integer z)|destruct (ToString_object h st _)..];
    apply R_refl.
Qed.

Lemma keeps_get t propName : keeps R (SSVGProxyHandler_get h t propName).
Proof.
  unfold SSVGProxyHandler_get.
  destruct (propName_match propName) as [[isCreate elemName]|]; [|apply keeps_throw].
  destruct (negb _); [|apply keeps_ret].
  apply keeps_bind; [apply keeps_Get|]. intros []; apply keeps_ret.
Qed.

Lemma keeps_read handle propName : keeps R (read h handle propName).
Proof.
  destruct handle; cbn [read];
    try apply keeps_throw; try apply keeps_unmodelled; try apply keeps_Get.
  unfold proxy_get. apply keeps_bind; [apply keeps_get|]. intros v.
  apply keeps_bind; [apply keeps_getOwnPropertyDescriptor|].
  intros [d|]; [destruct (frozen d && _)|]; try apply keeps_throw; apply keeps_ret.
Qed.

End Keeps.

(** X5.  Reading a property through a handle never changes the heap,
    whatever the name and whether the read gives a value or raises: the
    element of a kind is made when the creator is called, not when it is
    read. *)
Theorem reading_leaves_heap (h : Host) (t : loc) (propName : string) (st st' : heap)
    (c : completion value) :
  read h (VProxy t) propName st = (c, st') →
  c ≠ Unmodelled →
  st' = st ∧ (SSVGProxyHandler_get h t propName st).2 = st.
Proof.
  intros Hread _. split.
  - pose proof (keeps_read h eq (λ _, eq_refl) (λ a b c, @eq_trans _ a b c)
                  (VProxy t) propName st) as Hkeep.
    by rewrite Hread in Hkeep.
  - symmetry.
    exact (keeps_get h eq (λ _, eq_refl) (λ a b c, @eq_trans _ a b c) t propName st).
Qed.

(** Reading [session.circle]. *)
Lemma reading_leaves_heap_witness :
  read example_host (VProxy 0) "circle" session_heap
    = (Normal (VFunction (Creator false "circle" 0)), session_heap) ∧
  (SSVGProxyHandler_get example_host 0 "circle" session_heap).2 = session_heap.
Proof.
  split; [reflexivity|].
  exact (proj2 (reading_leaves_heap example_host 0 "circle" session_heap session_heap
                  (Normal (VFunction (Creator false "circle" 0))) eq_refl
                  ltac:(discriminate))).
Defined.

Lemma tree_of_insert (st : heap) t o o' :
  st !! t = Some o →
  (λ n, (localName n, children n, parent n)) <$> dom o'
    = (λ n, (localName n, children n, parent n)) <$> dom o →
  tree_of (<[t := o']> st) = tree_of st.
Proof.
  intros Ht Hshape. unfold tree_of. rewrite list_fmap_insert.
  apply list_insert_id. by rewrite list_lookup_fmap, Ht, Hshape.
Qed.

Lemma touches_only_refl t st : touches_only t st st.
Proof. by split. Qed.

Lemma touches_only_trans t a b c :
  touches_only t a b → touches_only t b c → touches_only t a c.
Proof.
  intros [Hab1 Hab2] [Hbc1 Hbc2]. split; [congruence|].
  intros l Hl. by rewrite Hbc2, Hab2.
Qed.

Lemma touches_only_insert (st : heap) t o o' :
  st !! t = Some o →
  (λ n, (localName n, children n, parent n)) <$> dom o'
    = (λ n, (localName n, children n, parent n)) <$> dom o →
  touches_only t st (<[t := o']> st).
Proof.
  intros Ht Hshape. split; [by eapply tree_of_insert|].
  intros l Hl. by rewrite list_lookup_insert_ne.
Qed.

Lemma touches_only_setAttribute h t args :
  keeps (touches_only t) (Element_setAttribute h t args).
Proof.
  pose proof (touches_only_refl t) as Hrefl.
  pose proof (touches_only_trans t) as Htrans.
  unfold Element_setAttribute.
  apply keeps_bind; [done|by apply keeps_lookup_object|]. intros o.
  destruct (dom o) as [n|]; [|by apply keeps_throw].
  destruct args as [|q [|v args]]; try by apply keeps_throw.
  apply keeps_bind; [done|by apply keeps_ToString|]. intros name.
  apply keeps_bind; [done|by apply keeps_ToString|]. intros s.
  destruct (valid_attribute_name h name); [|by apply keeps_throw].
  intros st. unfold bind, read_heap, write_heap, ret. cbn [snd].
  unfold update_node. destruct (st !! t) as [[props [nd|]]|] eqn:Ht; try done.
  by eapply touches_only_insert.
Qed.

Lemma touches_only_call_setAttribute h t name v :
  keeps (touches_only t) (call_method h (VObject t) "setAttribute" [VString name; v]).
Proof.
  pose proof (touches_only_refl t) as Hrefl.
  pose proof (touches_only_trans t) as Htrans.
  unfold call_method.
  apply keeps_bind; [done|by apply keeps_Get|]. intros f.
  destruct f as [| | | | | | |[m| |]];
    try (by apply keeps_throw); try (by apply keeps_unmodelled).
  unfold native_call.
  destruct (String.eqb m "setAttribute"); [apply touches_only_setAttribute|].
  destruct (String.eqb m "append"); [|by apply keeps_unmodelled].
  unfold Element_append.
  apply keeps_bind; [done|by apply keeps_lookup_object|]. intros o.
  destruct (dom o); [by apply keeps_unmodelled|by apply keeps_throw].
Qed.

Lemma touches_only_property_assign t name v :
  keeps (touches_only t) (property_assign t name v).
Proof.
  intros st. unfold property_assign, bind, lookup_object.
  destruct (st !! t) as [o|] eqn:Ht; [|apply touches_only_refl].
  destruct (own o !! name) as [d|]; [|apply touches_only_refl].
  destruct (d_writable d); [|apply touches_only_refl].
  unfold store_object. cbn [snd]. by eapply touches_only_insert.
Qed.

(** X6.  Whatever it is called with, and whether it returns or raises, the
    [set] trap keeps the shape of the tree (no node is made, no node gains
    or loses a child or a parent or changes its name) and leaves every
    object but its target as it was; so does the assignment statement, in
    strict and in sloppy code. *)
Theorem set_touches_only_target (h : Host) (t : loc) (name : string) (v : value)
    (st st' : heap) (c : completion value) :
  SSVGProxyHandler_set h t name v st = (c, st') →
  c ≠ Unmodelled →
  touches_only t st st' ∧
  ∀ strict, touches_only t st (assign h strict (VProxy t) name v st).2.
Proof.
  intros Htrap _.
  pose proof (touches_only_refl t) as Hrefl.
  pose proof (touches_only_trans t) as Htrans.
  assert (Hset : touches_only t st (SSVGProxyHandler_set h t name v st).2).
  { clear Htrap. revert st.
    change (keeps (touches_only t) (SSVGProxyHandler_set h t name v)).
    unfold SSVGProxyHandler_set.
    apply keeps_bind; [done|by apply keeps_getOwnPropertyDescriptor|]. intros desc.
    apply keeps_bind; [done| |intros; by apply keeps_ret].
    destruct (is_writable desc); [apply touches_only_property_assign|].
    apply keeps_bind; [done|apply touches_only_call_setAttribute|].
    intros; by apply keeps_ret. }
  rewrite Htrap in Hset. split; [exact Hset|]. intros strict.
  rewrite (assign_from_trap _ strict _ _ _ _ _ _ Htrap).
  by destruct c, strict.
Qed.

(** [circle.r = 50] on the circle of [circle_heap]: the container still has
    the circle as its only child. *)
Lemma set_touches_only_target_witness :
  let st' := (SSVGProxyHandler_set example_host 2 "r" (VNumber 50) circle_heap).2 in
  touches_only 2 circle_heap st' ∧
  (children <$> node_at st' 1) = Some [2].
Proof.
  intros st'. split; [|reflexivity].
  refine (proj1 (set_touches_only_target example_host 2 "r" (VNumber 50) circle_heap st'
                   (Normal VUndefined) eq_refl _)).
  discriminate.
Defined.

(** ** Errors of the host in the middle of a call *)

Lemma set_attributes_app h recv a b st :
  set_attributes h recv (a ++ b)%list st =
  (set_attributes h recv a ;;; set_attributes h recv b) st.
Proof.
  revert st. induction a as [|[k v] a IH]; intros st; [done|].
  cbn [app set_attributes]. rewrite !bind_unfold.
  destruct (recv st) as [[r| |] st1]; [|done..].
  rewrite !bind_unfold.
  destruct (call_method h r "setAttribute" [VString k; v] st1) as [[u| |] st2]; [|done..].
  rewrite IH. by rewrite bind_unfold.
Qed.

(** The attribute loop on the element [e]: the entries before a name the
    host refuses are applied, the refused one raises, the rest is never
    looked at. *)
Lemma set_attributes_refused h recv e props pre strs k v s post nd st :
  standard_dom h →
  props !! "setAttribute" = None →
  Forall2 (entry_ok h) pre strs →
  coerces h v s →
  valid_attribute_name h k = false →
  st !! e = Some (Object props (Some nd)) →
  stable_receiver recv e st →
  set_attributes h recv (pre ++ (k, v) :: post)%list st =
  (Throw InvalidCharacterError,
   <[e := Object props
            (Some (with_attributes nd (apply_entries (attributes nd) (zip pre.*1 strs))))]> st).
Proof.
  intros Hdom Hown Hpre Hv Hk He Hrecv.
  pose proof (lookup_lt_Some _ _ _ He) as Hlt.
  rewrite set_attributes_app.
  rewrite (bind_normal _ _ _ _ _
             (set_attributes_run h recv e props pre strs Hdom Hown Hpre nd st He Hrecv)).
  cbn [set_attributes].
  erewrite bind_normal; last first.
  { apply Hrecv; [by rewrite length_insert|].
    intros l Hl. by rewrite list_lookup_insert_ne. }
  erewrite bind_throw; [reflexivity|].
  eapply call_setAttribute_invalid; [by apply list_lookup_insert_eq| |exact Hv|exact Hk].
  split; [exact Hown|apply Hdom].
Qed.

(** X7.  When the host refuses the name of an entry of the mapping, the
    creator raises the host's error and returns no handle.  The element has
    been made all the same: it stays in the heap with the attributes of
    the entries before the refused one, without parent, not appended
    anywhere, with or without the marker, and without the property [root];
    every other object is as before. *)
Theorem creator_stops_at_refused_attribute (h : Host) (st : heap) (isCreate : bool)
    (elemName : string) (instance : loc) (pre post : list (string * value))
    (strs : list string) (k : string) (v : value) (s : string) :
  standard_dom h →
  valid_element_name h elemName = true →
  Forall2 (entry_ok h) pre strs →
  coerces h v s →
  valid_attribute_name h k = false →
  creator h isCreate elemName instance (Some (pre ++ (k, v) :: post)%list) st =
  (Throw InvalidCharacterError,
   (st ++ [bare_element elemName (apply_entries [] (zip pre.*1 strs))])%list).
Proof.
  intros Hdom Hname Hpre Hv Hk. unfold creator, createElementNS. rewrite Hname.
  rewrite (bind_normal (alloc _) _ st (length st)
             (st ++ [bare_element elemName []])%list eq_refl).
  erewrite bind_throw; [reflexivity|].
  change (entries (Some (pre ++ (k, v) :: post)%list)) with (pre ++ (k, v) :: post)%list.
  rewrite (set_attributes_refused h (ret (VObject (length st))) (length st) ∅
             pre strs k v s post (Node elemName svgns [] [] None)
             (st ++ [bare_element elemName []])%list
             Hdom (lookup_empty _) Hpre Hv Hk (lookup_fresh _ _) (λ st' _ _, eq_refl)).
  by rewrite insert_fresh.
Qed.

(** [session.circle({cx: 1, "a b": 2, r: 3})]: the circle keeps [cx], has
    no [r], and the container has no child. *)
Lemma creator_stops_at_refused_attribute_witness :
  invoke example_host (VProxy 0) "circle"
    (Some [("cx", VNumber 1); ("a b", VNumber 2); ("r", VNumber 3)]) session_heap =
  (Throw InvalidCharacterError,
   (session_heap ++ [bare_element "circle" [("cx", "1")]])%list) ∧
  (children <$> node_at session_heap 1) = Some [].
Proof.
  split; [|reflexivity].
  assert (Hpre : Forall2 (entry_ok example_host) [("cx", VNumber 1)] ["1"])
    by (repeat constructor; by intros st).
  exact (creator_stops_at_refused_attribute example_host session_heap false "circle" 0
           [("cx", VNumber 1)] [("r", VNumber 3)] ["1"] "a b" (VNumber 2) "2"
           example_standard_dom eq_refl Hpre (λ _, eq_refl) eq_refl).
Defined.

(** X8.  When the host refuses the name of an entry of the mapping, the
    constructor raises the host's error and returns no handle; the session
    object and the container it has made stay in the heap, the container
    with the attributes of the entries before the refused one. *)
Theorem constructor_stops_at_refused_attribute (h : Host) (st : heap)
    (pre post : list (string * value)) (strs : list string) (k : string) (v : value)
    (s : string) :
  standard_dom h →
  valid_element_name h "svg" = true →
  Forall2 (entry_ok h) pre strs →
  coerces h v s →
  valid_attribute_name h k = false →
  SSVG h (Some (pre ++ (k, v) :: post)%list) st =
  (Throw InvalidCharacterError,
   (st ++ [session_object (S (length st));
           container (apply_entries [] (zip pre.*1 strs))])%list).
Proof.
  intros Hdom Hname Hpre Hv Hk. unfold SSVG, createElementNS. rewrite Hname.
  rewrite (bind_normal (alloc _) _ st (length st) (st ++ [Object ∅ None])%list eq_refl).
  rewrite (bind_normal (alloc _) _ _ _ _ eq_refl).
  rewrite (bind_normal (store_object _ _) _ _ () _ eq_refl).
  rewrite <- app_assoc, length_app. cbn [app length].
  rewrite Nat.add_1_r, insert_first.
  fold (session_object (S (length st))).
  erewrite bind_throw; [reflexivity|].
  change (entries (Some (pre ++ (k, v) :: post)%list)) with (pre ++ (k, v) :: post)%list.
  assert (Hrecv : stable_receiver (Get h (length st) "root") (S (length st))
            (st ++ [session_object (S (length st)); container []])%list).
  { intros st' Hlen Hst'.
    rewrite (Get_Some h st' (length st) (session_object (S (length st))) "root").
    + unfold property_of, session_object. cbn [own]. by rewrite lookup_singleton_eq.
    + rewrite Hst' by lia. by apply list_lookup_middle. }
  rewrite (set_attributes_refused h _ (S (length st)) ∅
             pre strs k v s post (Node "svg" svgns [] [] None) _
             Hdom (lookup_empty _) Hpre Hv Hk (lookup_second _ _ _) Hrecv).
  by rewrite insert_second.
Qed.

(** [new SSVG({width: 100, "": 1})] *)
Lemma constructor_stops_at_refused_attribute_witness :
  SSVG example_host (Some [("width", VNumber 100); ("", VNumber 1)]) [] =
  (Throw InvalidCharacterError, [session_object 1; container [("width", "100")]]).
Proof.
  assert (Hpre : Forall2 (entry_ok example_host) [("width", VNumber 100)] ["100"])
    by (repeat constructor; by intros st).
  exact (constructor_stops_at_refused_attribute example_host []
           [("width", VNumber 100)] [] ["100"] "" (VNumber 1) "1"
           example_standard_dom eq_refl Hpre (λ _, eq_refl) eq_refl).
Defined.

(** ** Assignments, continued *)

(** X9.  On a target that has no function under [setAttribute] (the
    session object of every host whose plain objects inherit none), the
    [set] trap raises a [TypeError] for every name that is no writable own
    property, whatever the value; the assignment statement raises it in
    strict and in sloppy code, and the heap is as before. *)
Theorem assignment_without_setAttribute_raises (h : Host) (st : heap) (t : loc)
    (o : object) (name : string) (v : value) :
  st !! t = Some o →
  is_writable (own o !! name) = false →
  (∀ f, property_of h o "setAttribute" ≠ VFunction f) →
  SSVGProxyHandler_set h t name v st = (Throw TypeError, st) ∧
  ∀ strict, assign h strict (VProxy t) name v st = (Throw TypeError, st).
Proof.
  intros Ht Hnw Hnf.
  assert (Hset : SSVGProxyHandler_set h t name v st = (Throw TypeError, st)).
  { unfold SSVGProxyHandler_set.
    rewrite (bind_normal _ _ _ _ _ (getOwnPropertyDescriptor_Some _ _ _ name Ht)), Hnw.
    erewrite bind_throw; [reflexivity|]. erewrite bind_throw; [reflexivity|].
    unfold call_method.
    rewrite (bind_normal _ _ _ _ _ (Get_Some h _ _ _ "setAttribute" Ht)).
    destruct (property_of h o "setAttribute") as [| | | | | | |f] eqn:Hp; try done.
    by destruct (Hnf f). }
  split; [exact Hset|]. intros strict.
  by rewrite (assign_from_trap _ strict _ _ _ _ _ _ Hset).
Qed.

(** [session.fill = 'red'] *)
Lemma assignment_without_setAttribute_raises_witness :
  SSVGProxyHandler_set example_host 0 "fill" (VString "red") session_heap
    = (Throw TypeError, session_heap) ∧
  ∀ strict, assign example_host strict (VProxy 0) "fill" (VString "red") session_heap
            = (Throw TypeError, session_heap).
Proof.
  apply (assignment_without_setAttribute_raises example_host session_heap 0
           (session_object 1) "fill" (VString "red")); [reflexivity|reflexivity|].
  intros f. vm_compute. discriminate.
Defined.

(** X10.  The [root] of an element wrapper cannot be replaced through the
    handle: it is no writable property, so the assignment sets an attribute
    named [root] on the element, and [root] still reads as the element. *)
Theorem wrapper_root_is_read_only (h : Host) (st : heap) (e : loc) (elemName : string)
    (a : list (string * string)) (p : option loc) (v : value) (s : string) :
  standard_dom h →
  window_hasOwnProperty h "SVGRootElement" = false →
  st !! e = Some (created elemName a p e) →
  coerces h v s →
  valid_attribute_name h "root" = true →
  let st' := <[e := created elemName (set_attr "root" s a) p e]> st in
  (∀ strict, assign h strict (VProxy e) "root" v st
             = (if strict then Throw TypeError else Normal (), st')) ∧
  read h (VProxy e) "root" st' = (Normal (VObject e), st').
Proof.
  intros Hdom Hnoroot He Hv Hname st'.
  pose proof (lookup_lt_Some _ _ _ He) as Hlt.
  assert (Hset : SSVGProxyHandler_set h e "root" v st = (Normal VUndefined, st')).
  { apply (set_attribute_path h st e
             {["root" := Descriptor (VObject e) false false false]}
             (Node elemName svgns a [] p) "root" v s Hdom He); [| |exact Hv|exact Hname].
    - intros d. rewrite lookup_singleton_eq. by intros [= <-].
    - by rewrite lookup_singleton_ne. }
  split.
  - intros strict. by rewrite (assign_from_trap _ strict _ _ _ _ _ _ Hset).
  - erewrite read_root; [|done|by apply list_lookup_insert_eq|].
    + by rewrite created_root.
    + apply created_no_frozen_function.
Qed.

(** [circle.root = 5] *)
Lemma wrapper_root_is_read_only_witness :
  let st' := <[2 := created "circle" [("root", "5")] (Some 1) 2]> circle_heap in
  (∀ strict, assign example_host strict (VProxy 2) "root" (VNumber 5) circle_heap
             = (if strict then Throw TypeError else Normal (), st')) ∧
  read example_host (VProxy 2) "root" st' = (Normal (VObject 2), st').
Proof.
  exact (wrapper_root_is_read_only example_host circle_heap 2 "circle" [] (Some 1)
           (VNumber 5) "5" example_standard_dom eq_refl eq_refl (λ _, eq_refl) eq_refl).
Defined.

Lemma set_attr_set_attr k s1 s2 a : set_attr k s2 (set_attr k s1 a) = set_attr k s2 a.
Proof.
  induction a as [|[k' v'] a IH]; cbn.
  - by rewrite String.eqb_refl.
  - destruct (String.eqb k' k) eqn:Hk; cbn; rewrite Hk; [done|by rewrite IH].
Qed.

(** X11.  Two assignments to the same attribute in a row leave the element
    as the second alone would: one attribute of that name, with the last
    value, where the first assignment has put it or where it was. *)
Theorem last_assignment_wins (h : Host) (st : heap) (e : loc)
    (props : gmap string descriptor) (nd : node) (name : string) (v1 v2 : value)
    (s1 s2 : string) :
  standard_dom h →
  st !! e = Some (Object props (Some nd)) →
  is_writable (props !! name) = false →
  props !! "setAttribute" = None →
  coerces h v1 s1 → coerces h v2 s2 →
  valid_attribute_name h name = true →
  (assign h false (VProxy e) name v1 ;;; assign h false (VProxy e) name v2) st =
  assign h false (VProxy e) name v2 st ∧
  assign h false (VProxy e) name v2 st =
  (Normal (),
   <[e := Object props (Some (with_attributes nd (set_attr name s2 (attributes nd))))]> st).
Proof.
  intros Hdom He Hnw Hown Hv1 Hv2 Hname.
  pose proof (lookup_lt_Some _ _ _ He) as Hlt.
  assert (Hnw' : ∀ d, props !! name = Some d → d_writable d = false).
  { intros d Hd. by rewrite Hd in Hnw. }
  assert (Hone : ∀ nd0 st0 v s, st0 !! e = Some (Object props (Some nd0)) → coerces h v s →
            assign h false (VProxy e) name v st0 =
            (Normal (),
             <[e := Object props
                      (Some (with_attributes nd0 (set_attr name s (attributes nd0))))]> st0)).
  { intros nd0 st0 v s He0 Hv.
    by rewrite (assign_from_trap _ false _ _ _ _ _ _
                  (set_attribute_path h st0 e props nd0 name v s Hdom He0 Hnw' Hown Hv Hname)). }
  rewrite (Hone nd st v2 s2 He Hv2). split; [|done].
  rewrite (bind_normal _ _ _ _ _ (Hone nd st v1 s1 He Hv1)).
  erewrite Hone; [|by apply list_lookup_insert_eq|exact Hv2].
  rewrite list_insert_insert_eq. unfold with_attributes. cbn [attributes localName
    namespaceURI children parent]. by rewrite set_attr_set_attr.
Qed.

(** [circle.r = 1; circle.r = 2] *)
Lemma last_assignment_wins_witness :
  (assign example_host false (VProxy 2) "r" (VNumber 1) ;;;
   assign example_host false (VProxy 2) "r" (VNumber 2)) circle_heap =
  (Normal (), <[2 := created "circle" [("r", "2")] (Some 1) 2]> circle_heap).
Proof.
  assert (Hown : ({["root" := Descriptor (VObject 2) false false false]}
                    : gmap string descriptor) !! "setAttribute" = None)
    by by rewrite lookup_singleton_ne.
  assert (Hnw : is_writable (({["root" := Descriptor (VObject 2) false false false]}
                    : gmap string descriptor) !! "r") = false)
    by by rewrite lookup_singleton_ne.
  destruct (last_assignment_wins example_host circle_heap 2
              {["root" := Descriptor (VObject 2) false false false]}
              (Node "circle" svgns [] [] (Some 1)) "r" (VNumber 1) (VNumber 2) "1" "2"
              example_standard_dom eq_refl Hnw Hown (λ _, eq_refl) (λ _, eq_refl) eq_refl)
    as [Htwice Hone].
  exact (eq_trans Htwice Hone).
Defined.

(** ** Where creators attach *)

(** X12.  The node a session attaches to is whatever its property [root]
    holds when the creator runs.  After [session.root = other] for a node
    [other] (in sloppy code, where the statement completes), a call
    [session.K(attrs)] makes the new node the last child of [other] and
    leaves every object but the session and [other] as it was. *)
Theorem reassigned_root_redirects_attach (h : Host) (st : heap) (s other : loc)
    (o : object) (d : descriptor) (rp : gmap string descriptor) (rn : node) (K : string)
    (attrs : mapping) (strs : list string) :
  standard_dom h →
  token K = true → marked K = false →
  window_hasOwnProperty h (className_of K) = true →
  valid_element_name h (Str.toLowerCase K) = true →
  Forall2 (entry_ok h) (entries attrs) strs →
  st !! s = Some o →
  own o !! "root" = Some d → d_writable d = true →
  not_frozen o K →
  s ≠ other →
  st !! other = Some (Object rp (Some rn)) →
  rp !! "append" = None →
  ∃ st',
    (assign h false (VProxy s) "root" (VObject other) ;;; invoke h (VProxy s) K attrs) st
      = (Normal (VProxy (length st)), st') ∧
    parent <$> node_at st' (length st) = Some (Some other) ∧
    (∃ rn', node_at st' other = Some rn' ∧ children rn' = (children rn ++ [length st])%list) ∧
    (∀ l, l ≠ s → l ≠ other → l < length st → st' !! l = st !! l).
Proof.
  intros Hdom HK Hm Hw Hname Hall Hs Hd Hwr Hfr Hne Hother Happ.
  pose proof (lookup_lt_Some _ _ _ Hs) as Hslt.
  pose proof (lookup_lt_Some _ _ _ Hother) as Holt.
  set (o' := Object (<["root" := Descriptor (VObject other) true (d_enumerable d)
                                   (d_configurable d)]> (own o)) (dom o)).
  assert (Hassign : assign h false (VProxy s) "root" (VObject other) st
                    = (Normal (), <[s := o']> st)).
  { by rewrite (assign_from_trap _ false _ _ _ _ _ _
                  (set_property_path h st s o d "root" (VObject other) Hs Hd Hwr)). }
  assert (Hfr' : not_frozen o' K).
  { intros d'. unfold o'. cbn [own]. destruct (decide (K = "root")) as [->|HKr].
    - rewrite lookup_insert_eq. intros [= <-]. apply andb_false_r.
    - rewrite lookup_insert_ne by done. apply Hfr. }
  assert (Hroot : property_of h o' "root" = VObject other).
  { unfold property_of, o'. cbn [own]. by rewrite lookup_insert_eq. }
  assert (Hother' : <[s := o']> st !! other = Some (Object rp (Some rn)))
    by by rewrite list_lookup_insert_ne.
  pose proof (invoke_bare h s o' other rp rn K attrs strs (<[s := o']> st)
                Hdom HK Hm Hw Hname Hall (list_lookup_insert_eq _ _ _ Hslt) Hfr' Hroot
                Hother' Happ) as Hinv.
  rewrite length_insert in Hinv.
  eexists. split; [by rewrite (bind_normal _ _ _ _ _ Hassign)|].
  split; [|split].
  - unfold node_at. by rewrite lookup_fresh_at by by rewrite !length_insert.
  - exists (add_last_child (length st) rn). split; [|done].
    unfold node_at. rewrite lookup_app_l by by rewrite !length_insert.
    by rewrite list_lookup_insert_eq by by rewrite length_insert.
  - intros l Hls Hlo Hlt. rewrite lookup_app_l by by rewrite !length_insert.
    by rewrite !list_lookup_insert_ne.
Qed.

(** [let g = session.g(); session.root = g.root; session.circle()]: the
    circle, node 3, is a child of the group, node 2, and the container has
    the group as its only child. *)
Lemma reassigned_root_redirects_attach_witness :
  ∃ st',
    (assign example_host false (VProxy 0) "root" (VObject 2) ;;;
     invoke example_host (VProxy 0) "circle" None) group_heap = (Normal (VProxy 3), st') ∧
    parent <$> node_at st' 3 = Some (Some 2) ∧
    (∃ rn', node_at st' 2 = Some rn' ∧ children rn' = [3]) ∧
    (∀ l, l ≠ 0 → l ≠ 2 → l < 3 → st' !! l = group_heap !! l).
Proof.
  assert (Happ : ({["root" := Descriptor (VObject 2) false false false]}
                    : gmap string descriptor) !! "append" = None)
    by by rewrite lookup_singleton_ne.
  assert (Hfr : not_frozen (session_object 1) "circle").
  { intros d. unfold session_object. cbn [own]. by rewrite lookup_singleton_ne. }
  exact (reassigned_root_redirects_attach example_host group_heap 0 2 (session_object 1)
           (Descriptor (VObject 1) true true true)
           {["root" := Descriptor (VObject 2) false false false]}
           (Node "g" svgns [] [] (Some 1)) "circle" None []
           example_standard_dom eq_refl eq_refl eq_refl eq_refl ltac:(constructor)
           eq_refl eq_refl eq_refl Hfr ltac:(discriminate) eq_refl Happ).
Defined.

(** X13.  When [root] of the target holds a primitive value or a function
    (a session after [session.root = 5]), a call [handle.K(attrs)] raises a
    [TypeError] at [instance.root.append]; by then the element has been
    made: it stays in the heap with its attributes, without parent and
    without the property [root], and no handle is returned. *)
Theorem attach_to_non_node_raises (h : Host) (st : heap) (t : loc) (o : object)
    (K : string) (attrs : mapping) (strs : list string) :
  standard_dom h →
  token K = true → marked K = false →
  window_hasOwnProperty h (className_of K) = true →
  valid_element_name h (Str.toLowerCase K) = true →
  Forall2 (entry_ok h) (entries attrs) strs →
  st !! t = Some o →
  not_frozen o K →
  match property_of h o "root" with
  | VObject _ | VProxy _ => False
  | _ => True
  end →
  invoke h (VProxy t) K attrs st =
  (Throw TypeError,
   (st ++ [bare_element (Str.toLowerCase K)
             (apply_entries [] (zip (entries attrs).*1 strs))])%list).
Proof.
  intros Hdom HK Hm Hw Hname Hall Ht Hfr Hroot.
  pose proof (lookup_lt_Some _ _ _ Ht) as Hlt.
  unfold invoke, read.
  rewrite (bind_normal _ _ _ _ _
             (proxy_get_valid h t o K false K st (propName_match_bare K HK Hm) Hw Ht Hfr)).
  cbn [call].
  pose proof (creator_prefix h (Str.toLowerCase K) attrs strs st Hdom Hname Hall) as Hpre.
  unfold creator. rewrite bind_unfold in Hpre; rewrite bind_unfold.
  destruct (createElementNS h svgns (Str.toLowerCase K) st) as [[elem| |] st0]; [|done..].
  rewrite bind_unfold in Hpre; rewrite bind_unfold.
  destruct (set_attributes h (ret (VObject elem)) (entries attrs) st0) as [[[]| |] st1];
    [|done..].
  injection Hpre as -> ->. cbn [negb].
  erewrite bind_throw; [reflexivity|].
  erewrite bind_normal; last first.
  { apply Get_Some. by rewrite lookup_app_l. }
  erewrite bind_throw; [reflexivity|].
  by destruct (property_of h o "root").
Qed.

(** [session.root = 5; session.circle()] *)
Lemma attach_to_non_node_raises_witness :
  let st := <[0 := Object {["root" := Descriptor (VNumber 5) true true true]} None]>
              session_heap in
  invoke example_host (VProxy 0) "circle" None st
    = (Throw TypeError, (st ++ [bare_element "circle" []])%list).
Proof.
  assert (Hfr : not_frozen (Object {["root" := Descriptor (VNumber 5) true true true]} None)
                  "circle").
  { intros d. cbn [own]. by rewrite lookup_singleton_ne. }
  assert (Hroot : property_of example_host
                    (Object {["root" := Descriptor (VNumber 5) true true true]} None) "root"
                  = VNumber 5).
  { unfold property_of. cbn [own]. by rewrite lookup_singleton_eq. }
  intros st.
  refine (attach_to_non_node_raises example_host st 0
            (Object {["root" := Descriptor (VNumber 5) true true true]} None)
            "circle" None [] example_standard_dom eq_refl eq_refl eq_refl eq_refl
            ltac:(constructor) eq_refl Hfr _).
  by rewrite Hroot.
Defined.

(** X14.  A creator made for a name with the marker does not depend on the
    handle the name was read from: [a.createK(attrs)] and [b.createK(attrs)]
    end alike, in the same heap and, where they return, with the wrapper of
    the same new node. *)
Theorem create_ignores_handle (h : Host) (st : heap) (a b : loc) (oa ob : object)
    (K : string) (attrs : mapping) :
  token K = true →
  window_hasOwnProperty h (className_of K) = true →
  st !! a = Some oa → st !! b = Some ob →
  not_frozen oa ("create" ++ K) → not_frozen ob ("create" ++ K) →
  invoke h (VProxy a) ("create" ++ K) attrs st =
  invoke h (VProxy b) ("create" ++ K) attrs st.
Proof.
  intros HK Hw Ha Hb Hfa Hfb. unfold invoke, read.
  rewrite (bind_normal _ _ _ _ _
             (proxy_get_valid h a oa _ true K st (propName_match_create K HK) Hw Ha Hfa)).
  by rewrite (bind_normal _ _ _ _ _
                (proxy_get_valid h b ob _ true K st (propName_match_create K HK) Hw Hb Hfb)).
Qed.

(** [session.createRect()] and [g.createRect()] *)
Lemma create_ignores_handle_witness :
  invoke example_host (VProxy 0) "createRect" None group_heap =
  invoke example_host (VProxy 2) "createRect" None group_heap.
Proof.
  assert (Hfa : not_frozen (session_object 1) "createRect").
  { intros d. unfold session_object. cbn [own]. by rewrite lookup_singleton_ne. }
  assert (Hfb : not_frozen (created "g" [] (Some 1) 2) "createRect").
  { intros d. unfold created. cbn [own]. by rewrite lookup_singleton_ne. }
  exact (create_ignores_handle example_host group_heap 0 2 (session_object 1)
           (created "g" [] (Some 1) 2) "Rect" None eq_refl eq_refl eq_refl eq_refl Hfa Hfb).
Defined.

(** X15.  Two calls on the same handle, one after the other, make two
    different nodes and append them in the order of the calls: the node
    the handle attaches to has its old children, then the first new node,
    then the second, and both have it as their parent. *)
Theorem children_follow_call_order (h : Host) (st : heap) (t r : loc) (o : object)
    (rp : gmap string descriptor) (rn : node) (K1 K2 : string) (attrs1 attrs2 : mapping)
    (strs1 strs2 : list string) :
  standard_dom h →
  token K1 = true → marked K1 = false →
  window_hasOwnProperty h (className_of K1) = true →
  valid_element_name h (Str.toLowerCase K1) = true →
  Forall2 (entry_ok h) (entries attrs1) strs1 →
  token K2 = true → marked K2 = false →
  window_hasOwnProperty h (className_of K2) = true →
  valid_element_name h (Str.toLowerCase K2) = true →
  Forall2 (entry_ok h) (entries attrs2) strs2 →
  st !! t = Some o →
  not_frozen o K1 → not_frozen o K2 →
  property_of h o "root" = VObject r →
  st !! r = Some (Object rp (Some rn)) →
  rp !! "append" = None →
  let n := length st in
  ∃ st',
    (let* a := invoke h (VProxy t) K1 attrs1 in
     let* b := invoke h (VProxy t) K2 attrs2 in
     ret (a, b)) st = (Normal (VProxy n, VProxy (S n)), st') ∧
    (∃ rn', node_at st' r = Some rn' ∧ children rn' = (children rn ++ [n; S n])%list) ∧
    parent <$> node_at st' n = Some (Some r) ∧
    parent <$> node_at st' (S n) = Some (Some r).
Proof.
  intros Hdom HK1 Hm1 Hw1 Hn1 Hall1 HK2 Hm2 Hw2 Hn2 Hall2 Ht Hfr1 Hfr2 Hroot Hr Happ n.
  pose proof (lookup_lt_Some _ _ _ Hr) as Hrlt.
  pose proof (lookup_lt_Some _ _ _ Ht) as Htlt.
  pose proof (invoke_bare h t o r rp rn K1 attrs1 strs1 st
                Hdom HK1 Hm1 Hw1 Hn1 Hall1 Ht Hfr1 Hroot Hr Happ) as Hfirst.
  fold n in Hfirst.
  set (ro := Object rp (Some (add_last_child n rn))) in *.
  set (new1 := created (Str.toLowerCase K1) _ (Some r) n) in *.
  set (st1 := (<[r := ro]> st ++ [new1])%list) in *.
  assert (Hlen1 : length st1 = S n).
  { unfold st1. rewrite length_app, length_insert. cbn. lia. }
  assert (Hr1 : st1 !! r = Some ro).
  { unfold st1. rewrite lookup_app_l by by rewrite length_insert.
    by apply list_lookup_insert_eq. }
  assert (Ht1 : ∃ o1, st1 !! t = Some o1 ∧ property_of h o1 "root" = VObject r
                     ∧ not_frozen o1 K2).
  { destruct (decide (t = r)) as [->|Htr].
    - exists ro. split; [done|]. rewrite Hr in Ht. injection Ht as <-. by split.
    - exists o. split; [|done]. unfold st1.
      rewrite lookup_app_l by by rewrite length_insert.
      by rewrite list_lookup_insert_ne. }
  destruct Ht1 as (o1 & Ht1 & Hroot1 & Hfr1').
  pose proof (invoke_bare h t o1 r rp (add_last_child n rn) K2 attrs2 strs2 st1
                Hdom HK2 Hm2 Hw2 Hn2 Hall2 Ht1 Hfr1' Hroot1 Hr1 Happ) as Hsecond.
  rewrite Hlen1 in Hsecond.
  eexists. split.
  { rewrite (bind_normal _ _ _ _ _ Hfirst), (bind_normal _ _ _ _ _ Hsecond). reflexivity. }
  split; [|split].
  - eexists. split.
    + unfold node_at. rewrite lookup_app_l by (rewrite length_insert; lia).
      rewrite list_lookup_insert_eq by lia. reflexivity.
    + cbn. by rewrite <- app_assoc.
  - unfold node_at. rewrite lookup_app_l by (rewrite length_insert; lia).
    rewrite list_lookup_insert_ne by lia. unfold st1.
    by rewrite lookup_fresh_at by by rewrite length_insert.
  - unfold node_at. by rewrite lookup_fresh_at by by rewrite length_insert.
Qed.

(** [session.circle(); session.rect()]: the container has the circle,
    node 2, then the rectangle, node 3. *)
Lemma children_follow_call_order_witness :
  ∃ st',
    (let* a := invoke example_host (VProxy 0) "circle" None in
     let* b := invoke example_host (VProxy 0) "rect" None in
     ret (a, b)) session_heap = (Normal (VProxy 2, VProxy 3), st') ∧
    (∃ rn', node_at st' 1 = Some rn' ∧ children rn' = [2; 3]) ∧
    parent <$> node_at st' 2 = Some (Some 1) ∧
    parent <$> node_at st' 3 = Some (Some 1).
Proof.
  assert (Hfr : ∀ K, K ≠ "root" → not_frozen (session_object 1) K).
  { intros K HK d. unfold session_object. cbn [own]. by rewrite lookup_singleton_ne. }
  exact (children_follow_call_order example_host session_heap 0 1 (session_object 1)
           ∅ (Node "svg" svgns [] [] None) "circle" "rect" None None [] []
           example_standard_dom eq_refl eq_refl eq_refl eq_refl ltac:(constructor)
           eq_refl eq_refl eq_refl eq_refl ltac:(constructor)
           eq_refl (Hfr "circle" ltac:(discriminate)) (Hfr "rect" ltac:(discriminate))
           eq_refl eq_refl (lookup_empty _)).
Defined.

(** X16.  Every element wrapper the library hands out can be used like the
    session, at any depth: on an element that carries the [root] of
    [SSVGElementProxy], a call [handle.K(attrs)] for a bare known kind
    makes the new node the last child of that element and returns its
    wrapper; the element keeps its [root], so the same holds for the next
    call on it, and the new element has a [root] of the same kind. *)
Theorem wrapper_accepts_creator_calls (h : Host) (st : heap) (e : loc) (nd : node)
    (K : string) (attrs : mapping) (strs : list string) :
  standard_dom h →
  window_hasOwnProperty h "SVGRootElement" = false →
  token K = true → marked K = false →
  window_hasOwnProperty h (className_of K) = true →
  valid_element_name h (Str.toLowerCase K) = true →
  Forall2 (entry_ok h) (entries attrs) strs →
  st !! e = Some (Object {["root" := Descriptor (VObject e) false false false]} (Some nd)) →
  let n := length st in
  invoke h (VProxy e) K attrs st =
  (Normal (VProxy n),
   (<[e := Object {["root" := Descriptor (VObject e) false false false]}
                  (Some (add_last_child n nd))]> st ++
    [Object {["root" := Descriptor (VObject n) false false false]}
            (Some (Node (Str.toLowerCase K) svgns
                        (apply_entries [] (zip (entries attrs).*1 strs)) [] (Some e)))])%list).
Proof.
  intros Hdom Hnoroot HK Hm Hw Hname Hall He n.
  assert (HKr : K ≠ "root").
  { intros ->. change (className_of "root") with "SVGRootElement" in Hw. congruence. }
  set (props := {["root" := Descriptor (VObject e) false false false]}
                : gmap string descriptor) in *.
  assert (Hfr : not_frozen (Object props (Some nd)) K).
  { intros d. cbn [own]. unfold props. by rewrite lookup_singleton_ne. }
  assert (Hroot : property_of h (Object props (Some nd)) "root" = VObject e).
  { unfold property_of, props. cbn [own]. by rewrite lookup_singleton_eq. }
  assert (Happ : props !! "append" = None) by by (unfold props; rewrite lookup_singleton_ne).
  exact (invoke_bare h e (Object props (Some nd)) e props nd K attrs strs st
           Hdom HK Hm Hw Hname Hall He Hfr Hroot He Happ).
Qed.

(** [g.circle()] on the group of [group_heap], then [circle.title()] on
    the circle it has returned. *)
Lemma wrapper_accepts_creator_calls_witness :
  let st1 := (invoke example_host (VProxy 2) "circle" None group_heap).2 in
  let st2 := (invoke example_host (VProxy 3) "title" None st1).2 in
  invoke example_host (VProxy 2) "circle" None group_heap = (Normal (VProxy 3), st1) ∧
  invoke example_host (VProxy 3) "title" None st1 = (Normal (VProxy 4), st2) ∧
  (children <$> node_at st2 2) = Some [3] ∧
  (children <$> node_at st2 3) = Some [4] ∧
  (parent <$> node_at st2 4) = Some (Some 3).
Proof.
  intros st1 st2. split; [|split].
  - exact (wrapper_accepts_creator_calls example_host group_heap 2
             (Node "g" svgns [] [] (Some 1)) "circle" None []
             example_standard_dom eq_refl eq_refl eq_refl eq_refl eq_refl
             ltac:(constructor) eq_refl).
  - exact (wrapper_accepts_creator_calls example_host st1 3
             (Node "circle" svgns [] [] (Some 2)) "title" None []
             example_standard_dom eq_refl eq_refl eq_refl eq_refl eq_refl
             ltac:(constructor) eq_refl).
  - repeat split; vm_compute; reflexivity.
Defined.
